(** * libbitcoin transaction indexer: a shallow embedding

    This development embeds [src/src/transaction_indexer.cpp] and the
    declarations of [src/include/bitcoin/transaction_indexer.hpp]:

    - the address index ([do_query], [do_index], [do_deindex]) over the two
      [std::unordered_multimap]s [spends_map_] and [outputs_map_];
    - the history merger, which is the body of [indexer_history_fetched].

    The code signals violated invariants with [BITCOIN_ASSERT]; a run of the
    embedded code therefore ends in one of three ways, see [result]. *)

From stdpp Require Import base decidable option numbers list strings.

Open Scope Z_scope.

(** ** Results of running a piece of the code *)

(** [Returned a s]: the code ran to its end, giving [a] in state [s].
    [Aborted msg s]: a [BITCOIN_ASSERT] failed (the process aborts); [s] is
    the state reached when the assertion was evaluated.
    [Undefined]: the code did something C++ leaves undefined (erasing the
    [end()] iterator). *)
Inductive result (S A : Type) : Type :=
| Returned (a : A) (s : S)
| Aborted (msg : string) (s : S)
| Undefined.
Arguments Returned {S A} a s.
Arguments Aborted {S A} msg s.
Arguments Undefined {S A}.

Definition M (S A : Type) : Type := S → result S A.

Definition ret {S A} (a : A) : M S A := λ s, Returned a s.

Definition bind {S A B} (m : M S A) (k : A → M S B) : M S B :=
  λ s, match m s with
       | Returned a s' => k a s'
       | Aborted msg s' => Aborted msg s'
       | Undefined => Undefined
       end.

Declare Scope indexer_scope.
Delimit Scope indexer_scope with idx.
Notation "'do' x <- m ; k" := (bind m (λ x, k))
  (at level 10, x name, m at level 100, k at level 200) : indexer_scope.
Notation "m ;;; k" := (bind m (λ _, k))
  (at level 100, k at level 200, right associativity) : indexer_scope.
Open Scope indexer_scope.

Definition get {S} : M S S := λ s, Returned s s.
Definition modify {S} (f : S → S) : M S unit := λ s, Returned tt (f s).
Definition undefined_behaviour {S A} : M S A := λ _, Undefined.

(** [BITCOIN_ASSERT_MSG(expr, msg)] of [bitcoin/utility/assert.hpp]. The
    header is not part of the sources at hand; the code itself tests
    [BITCOIN_DISABLE_ASSERTS] (line 228), so whether assertions are compiled
    in is a parameter of every function that asserts: [asserts = true] is the
    default build, in which a false [expr] aborts the process, and
    [asserts = false] is a build with [BITCOIN_DISABLE_ASSERTS], in which the
    macro expands to nothing. *)
Definition BITCOIN_ASSERT_MSG {S} (asserts : bool) (expr : bool) (msg : string)
  : M S unit :=
  λ s, if asserts && negb expr then Aborted msg s else Returned tt s.

(** [BITCOIN_ASSERT(expr)]; [text] is the expression as written, which is
    what a failed [assert] prints. *)
Definition BITCOIN_ASSERT {S} (asserts : bool) (expr : bool) (text : string)
  : M S unit :=
  BITCOIN_ASSERT_MSG asserts expr text.

(** Runs [body] on every element of [l], in order; a range-based [for]. *)
Fixpoint for_each {S X} (body : X → M S unit) (l : list X) : M S unit :=
  match l with
  | [] => ret tt
  | x :: rest => body x ;;; for_each body rest
  end.

(** ** Integers *)

(** [++i] on a [uint32_t]. *)
Definition uint32_succ (i : Z) : Z := (i + 1) mod 2 ^ 32.

(** [std::numeric_limits<uint32_t>::max()], line 216. *)
Definition max_height : Z := 2 ^ 32 - 1.

(** [std::error_code]: its value, [0] for the default-constructed
    [std::error_code()], which converts to [false]. *)
Definition error_code : Type := Z.
Definition no_error : error_code := 0.
Definition is_error (ec : error_code) : bool := negb (ec =? 0).

Section model.

(** ** Collaborators

    Types and functions that the indexer uses and other headers declare:
    hashes, addresses and scripts, [null_hash] and [max_index] of
    [bitcoin/constants.hpp], [extract] (script to address) and
    [hash_transaction]. *)
Context {hash_digest payment_address script_type : Type}.
Context `{!EqDecision hash_digest, !EqDecision payment_address}.
Variable null_hash : hash_digest.
Variable max_index : Z.

(** ** Data model *)

Record output_point : Type := { hash : hash_digest; index : Z }.
Definition input_point : Type := output_point.

#[global] Instance output_point_eq_dec : EqDecision output_point.
Proof. solve_decision. Defined.

Record transaction_input_type : Type := {
  input_previous_output : output_point;
  input_script : script_type;
  input_sequence : Z
}.

Record transaction_output_type : Type := {
  output_value : Z;
  output_script : script_type
}.

Record transaction_type : Type := {
  version : Z;
  locktime : Z;
  inputs : list transaction_input_type;
  outputs : list transaction_output_type
}.

(** [extract(payaddr, script)] returns whether the script resolves to an
    address and, if so, stores the address in [payaddr]. *)
Variable extract : script_type → option payment_address.
Variable hash_transaction : transaction_type → hash_digest.

(** [transaction_indexer.hpp], lines 15-28. *)
Record spend_info_type : Type := {
  spend_point : input_point;
  previous_output : output_point
}.

Record output_info_type : Type := {
  output_info_point : output_point;
  value : Z
}.

Abbreviation spend_info_list := (list spend_info_type) (only parsing).
Abbreviation output_info_list := (list output_info_type) (only parsing).

(** [blockchain::history_row], in the order of the aggregate at lines
    241-247. *)
Record history_row : Type := {
  output : output_point;
  output_height : Z;
  row_value : Z;
  spend : input_point;
  spend_height : Z
}.
Abbreviation history_list := (list history_row) (only parsing).

#[global] Instance spend_info_eq_dec : EqDecision spend_info_type.
Proof. solve_decision. Defined.
#[global] Instance output_info_eq_dec : EqDecision output_info_type.
Proof. solve_decision. Defined.
#[global] Instance history_row_eq_dec : EqDecision history_row.
Proof. solve_decision. Defined.

(** Both info structs have a member called [point]; the templates
    [find_entry] and [index_does_not_exist] read it as [it->second.point]. *)
Class HasPoint (V : Type) : Type := point : V → output_point.
#[global] Instance spend_info_point : HasPoint spend_info_type := spend_point.
#[global] Instance output_info_has_point : HasPoint output_info_type :=
  output_info_point.

(** ** The multimaps

    A [std::unordered_multimap<payment_address, V>] is the list of its
    entries in iteration order. The standard leaves the place of a new entry
    open; here [emplace] adds it at the end. Iterators are positions in the
    list, [None] being [end()]. *)
Abbreviation multimap V := (list (payment_address * V)) (only parsing).

Definition equal_range {V} (key : payment_address) (map : multimap V)
  : multimap V :=
  filter (λ e, e.1 = key) map.

(** Lines 31-40. *)
Definition get_info_list {V} (payaddr : payment_address) (map : multimap V)
  : list V :=
  (equal_range payaddr map).*2.

(** Lines 51-63: the first entry of the key's range whose point is
    [value_point]. The range of a key is made of the entries with that key,
    so this is the first entry of the map that has the key and the point. *)
Definition find_entry {V} `{!HasPoint V} (key : payment_address)
    (value_point : output_point) (map : multimap V) : option nat :=
  fst <$> list_find (λ e, e.1 = key ∧ point e.2 = value_point) map.

(** Lines 65-70. *)
Definition index_does_not_exist {V} `{!HasPoint V} (key : payment_address)
    (value_point : output_point) (map : multimap V) : bool :=
  bool_decide (find_entry key value_point map = None).

Definition emplace {V} (key : payment_address) (v : V) : M (multimap V) unit :=
  modify (λ map, map ++ [(key, v)]).

(** [map.erase(it)]; erasing [end()] is undefined. *)
Definition erase {V} (it : option nat) : M (multimap V) unit :=
  match it with
  | Some i => modify (λ map : list (payment_address * V), delete i map)
  | None => undefined_behaviour
  end.

(** ** Handlers and the state of the indexer *)

(** The arguments of a [query_handler] call by position: each list argument
    is either a list of spends or a list of outputs. *)
Inductive info_list : Type :=
| spend_infos (spends : spend_info_list)
| output_infos (outputs : output_info_list).

(** What a caller of the indexer observes: the calls made to the handlers it
    passed in. *)
Inductive handler_call : Type :=
| completion_handler_call (ec : error_code)
| query_handler_call (ec : error_code) (arg2 arg3 : info_list)
| fetch_handler_call (ec : error_code) (history : history_list).

(** The members [spends_map_] and [outputs_map_] of [transaction_indexer],
    and the handler calls made so far. *)
Record indexer_state : Type := {
  spends_map_ : multimap spend_info_type;
  outputs_map_ : multimap output_info_type;
  handled : list handler_call
}.

Definition completion_handler : Type := error_code → M indexer_state unit.
Definition query_handler : Type :=
  error_code → info_list → info_list → M indexer_state unit.
Definition fetch_handler_history : Type :=
  error_code → history_list → M indexer_state unit.

(** The signature [query_handler] is declared with (header, lines 36-38 and
    the comment at lines 53-57): the spends second, the outputs third. *)
Definition declared_query_arguments (arg2 arg3 : info_list) : Prop :=
  (∃ spends, arg2 = spend_infos spends) ∧
  (∃ outputs, arg3 = output_infos outputs).

(** Code running on one member map of the indexer. *)
Definition on_spends_map {A} (m : M (multimap spend_info_type) A)
  : M indexer_state A :=
  λ st,
    let with_map map :=
      {| spends_map_ := map; outputs_map_ := outputs_map_ st;
         handled := handled st |} in
    match m (spends_map_ st) with
    | Returned a map => Returned a (with_map map)
    | Aborted msg map => Aborted msg (with_map map)
    | Undefined => Undefined
    end.

Definition on_outputs_map {A} (m : M (multimap output_info_type) A)
  : M indexer_state A :=
  λ st,
    let with_map map :=
      {| spends_map_ := spends_map_ st; outputs_map_ := map;
         handled := handled st |} in
    match m (outputs_map_ st) with
    | Returned a map => Returned a (with_map map)
    | Aborted msg map => Aborted msg (with_map map)
    | Undefined => Undefined
    end.

(** Handlers that only record that they were called. *)
Definition record_call (c : handler_call) : M indexer_state unit :=
  modify (λ st,
    {| spends_map_ := spends_map_ st; outputs_map_ := outputs_map_ st;
       handled := handled st ++ [c] |}).

Definition record_completion : completion_handler :=
  λ ec, record_call (completion_handler_call ec).
Definition record_query : query_handler :=
  λ ec arg2 arg3, record_call (query_handler_call ec arg2 arg3).
Definition record_fetch : fetch_handler_history :=
  λ ec history, record_call (fetch_handler_call ec history).

(** ** The address index

    [query], [index] and [deindex] (lines 21-29, 72-80, 123-131) only queue
    [do_query], [do_index] and [do_deindex] on the strand, which runs what is
    queued one piece at a time, in order: a call is a run of the [do_]
    function on the state the calls before it left. *)

(** Lines 41-49. *)
Definition do_query (payaddr : payment_address) (handle_query : query_handler)
  : M indexer_state unit :=
  do st <- get;
  handle_query no_error
    (output_infos (get_info_list payaddr (outputs_map_ st)))
    (spend_infos (get_info_list payaddr (spends_map_ st))).

(** Lines 87-103, the loop over [tx.inputs] from counter [i] on. *)
Fixpoint index_inputs (asserts : bool) (tx_hash : hash_digest) (i : Z)
    (tx_inputs : list transaction_input_type)
  : M (multimap spend_info_type) unit :=
  match tx_inputs with
  | [] => ret tt
  | input :: rest =>
      match extract (input_script input) with
      | None => index_inputs asserts tx_hash (uint32_succ i) rest
      | Some payaddr =>
          let point := {| hash := tx_hash; index := i |} in
          do spends_map <- get;
          BITCOIN_ASSERT_MSG asserts
            (index_does_not_exist payaddr point spends_map)
            "Transaction is indexed duplicate times!" ;;;
          emplace payaddr
            {| spend_point := point;
               previous_output := input_previous_output input |} ;;;
          index_inputs asserts tx_hash (uint32_succ i) rest
      end
  end.

(** Lines 104-120, the loop over [tx.outputs]. *)
Fixpoint index_outputs (asserts : bool) (tx_hash : hash_digest) (i : Z)
    (tx_outputs : list transaction_output_type)
  : M (multimap output_info_type) unit :=
  match tx_outputs with
  | [] => ret tt
  | output :: rest =>
      match extract (output_script output) with
      | None => index_outputs asserts tx_hash (uint32_succ i) rest
      | Some payaddr =>
          let point := {| hash := tx_hash; index := i |} in
          do outputs_map <- get;
          BITCOIN_ASSERT_MSG asserts
            (index_does_not_exist payaddr point outputs_map)
            "Transaction is indexed duplicate times!" ;;;
          emplace payaddr
            {| output_info_point := point; value := output_value output |} ;;;
          index_outputs asserts tx_hash (uint32_succ i) rest
      end
  end.

(** Lines 81-121. The loops run while [i < size()] with a 32-bit [i]; they
    end, as the recursion on the list does, for the transactions with fewer
    than [2 ^ 32] inputs and outputs. The body never calls [handle_index]. *)
Definition do_index (asserts : bool) (tx : transaction_type)
    (handle_index : completion_handler) : M indexer_state unit :=
  let tx_hash := hash_transaction tx in
  on_spends_map (index_inputs asserts tx_hash 0 (inputs tx)) ;;;
  on_outputs_map (index_outputs asserts tx_hash 0 (outputs tx)).

(** Lines 138-156. *)
Fixpoint deindex_inputs (asserts : bool) (tx_hash : hash_digest) (i : Z)
    (tx_inputs : list transaction_input_type)
  : M (multimap spend_info_type) unit :=
  match tx_inputs with
  | [] => ret tt
  | input :: rest =>
      match extract (input_script input) with
      | None => deindex_inputs asserts tx_hash (uint32_succ i) rest
      | Some payaddr =>
          let point := {| hash := tx_hash; index := i |} in
          do spends_map <- get;
          let it := find_entry payaddr point spends_map in
          BITCOIN_ASSERT_MSG asserts (bool_decide (it ≠ None))
            "Can't deindex transaction twice" ;;;
          erase it ;;;
          do spends_map <- get;
          BITCOIN_ASSERT_MSG asserts
            (index_does_not_exist payaddr point spends_map)
            "Transaction is indexed duplicate times!" ;;;
          deindex_inputs asserts tx_hash (uint32_succ i) rest
      end
  end.

(** Lines 157-175. *)
Fixpoint deindex_outputs (asserts : bool) (tx_hash : hash_digest) (i : Z)
    (tx_outputs : list transaction_output_type)
  : M (multimap output_info_type) unit :=
  match tx_outputs with
  | [] => ret tt
  | output :: rest =>
      match extract (output_script output) with
      | None => deindex_outputs asserts tx_hash (uint32_succ i) rest
      | Some payaddr =>
          let point := {| hash := tx_hash; index := i |} in
          do outputs_map <- get;
          let it := find_entry payaddr point outputs_map in
          BITCOIN_ASSERT_MSG asserts (bool_decide (it ≠ None))
            "Can't deindex transaction twice" ;;;
          erase it ;;;
          do outputs_map <- get;
          BITCOIN_ASSERT_MSG asserts
            (index_does_not_exist payaddr point outputs_map)
            "Transaction is indexed duplicate times!" ;;;
          deindex_outputs asserts tx_hash (uint32_succ i) rest
      end
  end.

(** Lines 132-176; [handle_deindex] is never called either. *)
Definition do_deindex (asserts : bool) (tx : transaction_type)
    (handle_deindex : completion_handler) : M indexer_state unit :=
  let tx_hash := hash_transaction tx in
  on_spends_map (deindex_inputs asserts tx_hash 0 (inputs tx)) ;;;
  on_outputs_map (deindex_outputs asserts tx_hash 0 (outputs tx)).

(** ** The history merger *)

Definition unspent : input_point := {| hash := null_hash; index := max_index |}.

(** Lines 226-248, one round of the loop over [outputs]: the rows so far are
    checked against the new output (lines 228-240, compiled only with
    assertions), then the row is appended. *)
Definition add_output (asserts : bool) (output_info : output_info_type)
  : M history_list unit :=
  do history <- get;
  for_each
    (λ row : history_row,
       BITCOIN_ASSERT asserts
         (bool_decide (output row ≠ output_info_point output_info))
         "row.output != output_info.point")
    history ;;;
  modify (λ history : history_list,
    history ++
      [ {| output := output_info_point output_info;
           output_height := 0;
           row_value := value output_info;
           spend := unspent;
           spend_height := max_height |} ]).

(** Lines 254-264: the scan of [history] for the row to mark, which stops at
    the first row whose output is the one spent; the value is [found]. *)
Fixpoint mark_rows (asserts : bool) (spend_info : spend_info_type)
    (rows : history_list) : result history_list bool :=
  match rows with
  | [] => Returned false []
  | row :: rest =>
      if decide (output row ≠ previous_output spend_info) then
        match mark_rows asserts spend_info rest with
        | Returned found rest' => Returned found (row :: rest')
        | Aborted msg rest' => Aborted msg (row :: rest')
        | Undefined => Undefined
        end
      else
        (BITCOIN_ASSERT asserts (bool_decide (spend_height row = max_height))
           "row.spend_height == max_height" ;;;
         BITCOIN_ASSERT asserts (bool_decide (spend row = unspent))
           "(row.spend == input_point{null_hash, max_index})" ;;;
         modify (λ _ : history_list,
           {| output := output row;
              output_height := output_height row;
              row_value := row_value row;
              spend := spend_point spend_info;
              spend_height := 0 |} :: rest) ;;;
         ret true) (row :: rest)
  end.

(** Lines 250-266, one round of the loop over [spends]. *)
Definition mark_spend (asserts : bool) (spend_info : spend_info_type)
  : M history_list unit :=
  do found <- mark_rows asserts spend_info;
  BITCOIN_ASSERT_MSG asserts found "Couldn't find output for adding spend".

(** Lines 225-266: what the specification calls merge, run on the local
    variable [history]. *)
Definition merge (asserts : bool) (outputs : output_info_list)
    (spends : spend_info_list) : M history_list unit :=
  for_each (add_output asserts) outputs ;;;
  for_each (mark_spend asserts) spends.

(** Lines 211-268. *)
Definition indexer_history_fetched (asserts : bool) (ec : error_code)
    (outputs : output_info_list) (spends : spend_info_list)
    (history : history_list) (handle_fetch : fetch_handler_history)
  : M indexer_state unit :=
  if is_error ec then handle_fetch ec []
  else
    λ st, match merge asserts outputs spends history with
          | Returned _ history' => handle_fetch no_error history' st
          | Aborted msg _ => Aborted msg st
          | Undefined => Undefined
          end.

(** Lines 197-210. [indexer.query] queues [do_query] on the strand, and the
    handler is [std::bind(indexer_history_fetched, _1, _2, _3, history,
    handle_fetch)]: the second argument of the call becomes [outputs], the
    third [spends]. [do_query] passes an output list second and a spend list
    third, so the last branch is never taken. *)
Definition blockchain_history_fetched (asserts : bool) (ec : error_code)
    (history : history_list) (address : payment_address)
    (handle_fetch : fetch_handler_history) : M indexer_state unit :=
  if is_error ec then handle_fetch ec []
  else
    do_query address
      (λ ec' arg2 arg3,
         match arg2, arg3 with
         | output_infos outputs, spend_infos spends =>
             indexer_history_fetched asserts ec' outputs spends history
               handle_fetch
         | _, _ => undefined_behaviour
         end).

(** Lines 187-196; [chain] stands for [blockchain::fetch_history], giving
    the error code and rows it passes to its handler. *)
Definition fetch_history (asserts : bool)
    (chain : payment_address → Z → error_code * history_list)
    (address : payment_address) (handle_fetch : fetch_handler_history)
    (from_height : Z) : M indexer_state unit :=
  let '(ec, history) := chain address from_height in
  blockchain_history_fetched asserts ec history address handle_fetch.

(** ** The loops of [do_index] and [do_deindex], entry by entry

    The four loops skip what has no address and otherwise act on one entry
    of one map. [spend_entries] and [output_entries] list the entries a
    transaction stands for; [index_entry] and [deindex_entry] are the loop
    bodies at such an entry. The loops are shown equal to [for_each] over
    these lists below ([index_inputs_entries] and its likes). *)

Fixpoint spend_entries (tx_hash : hash_digest) (i : Z)
    (tx_inputs : list transaction_input_type) : multimap spend_info_type :=
  match tx_inputs with
  | [] => []
  | input :: rest =>
      match extract (input_script input) with
      | None => spend_entries tx_hash (uint32_succ i) rest
      | Some payaddr =>
          (payaddr,
           {| spend_point := {| hash := tx_hash; index := i |};
              previous_output := input_previous_output input |})
          :: spend_entries tx_hash (uint32_succ i) rest
      end
  end.

Fixpoint output_entries (tx_hash : hash_digest) (i : Z)
    (tx_outputs : list transaction_output_type) : multimap output_info_type :=
  match tx_outputs with
  | [] => []
  | output :: rest =>
      match extract (output_script output) with
      | None => output_entries tx_hash (uint32_succ i) rest
      | Some payaddr =>
          (payaddr,
           {| output_info_point := {| hash := tx_hash; index := i |};
              value := output_value output |})
          :: output_entries tx_hash (uint32_succ i) rest
      end
  end.

Definition spends_of_tx (tx : transaction_type) : multimap spend_info_type :=
  spend_entries (hash_transaction tx) 0 (inputs tx).
Definition outputs_of_tx (tx : transaction_type) : multimap output_info_type :=
  output_entries (hash_transaction tx) 0 (outputs tx).

Definition index_entry {V} `{!HasPoint V} (asserts : bool)
    (e : payment_address * V) : M (multimap V) unit :=
  do map <- get;
  BITCOIN_ASSERT_MSG asserts (index_does_not_exist e.1 (point e.2) map)
    "Transaction is indexed duplicate times!" ;;;
  emplace e.1 e.2.

Definition deindex_entry {V} `{!HasPoint V} (asserts : bool)
    (e : payment_address * V) : M (multimap V) unit :=
  do map <- get;
  let it := find_entry e.1 (point e.2) map in
  BITCOIN_ASSERT_MSG asserts (bool_decide (it ≠ None))
    "Can't deindex transaction twice" ;;;
  erase it ;;;
  do map <- get;
  BITCOIN_ASSERT_MSG asserts (index_does_not_exist e.1 (point e.2) map)
    "Transaction is indexed duplicate times!".

(** What identifies an entry of a multimap: its address and its point. *)
Definition entry_key {V} `{!HasPoint V} (e : payment_address * V)
  : payment_address * output_point :=
  (e.1, point e.2).

(** [absent map e]: no entry of [map] has the address and point of [e]. *)
Definition absent {V} `{!HasPoint V} (map : multimap V)
    (e : payment_address * V) : Prop :=
  index_does_not_exist e.1 (point e.2) map = true.

(** No entry that [index] would add for [tx] is in the index. *)
Definition not_indexed (tx : transaction_type) (st : indexer_state) : Prop :=
  Forall (absent (spends_map_ st)) (spends_of_tx tx) ∧
  Forall (absent (outputs_map_ st)) (outputs_of_tx tx).

(** [tx] has an input or an output with an address. *)
Definition touches_an_address (tx : transaction_type) : Prop :=
  spends_of_tx tx ≠ [] ∨ outputs_of_tx tx ≠ [].

(** The 32-bit counters of [do_index] and [do_deindex] can number the inputs
    and the outputs of [tx]. *)
Definition countable_by_uint32 (tx : transaction_type) : Prop :=
  (Z.of_nat (length (inputs tx)) < 2 ^ 32 ∧
   Z.of_nat (length (outputs tx)) < 2 ^ 32)%Z.

(** The row that [add_output] appends. *)
Definition unconfirmed_row (output_info : output_info_type) : history_row :=
  {| output := output_info_point output_info;
     output_height := 0;
     row_value := value output_info;
     spend := unspent;
     spend_height := max_height |}.

(** A row after [mark_rows] has marked it as spent by [spend_info]. *)
Definition marked (spend_info : spend_info_type) (row : history_row)
  : history_row :=
  {| output := output row;
     output_height := output_height row;
     row_value := row_value row;
     spend := spend_point spend_info;
     spend_height := 0 |}.

(** The state after [index] has added the entries of [tx]. *)
Definition indexed (tx : transaction_type) (st : indexer_state)
  : indexer_state :=
  {| spends_map_ := spends_map_ st ++ spends_of_tx tx;
     outputs_map_ := outputs_map_ st ++ outputs_of_tx tx;
     handled := handled st |}.



(** [row'] is [row], or [row] marked as spent by one of [spends] that
    spends its output. *)
Definition marked_by (spends : spend_info_list) (row row' : history_row)
  : Prop :=
  row' = row ∨
  ∃ spend_info, spend_info ∈ spends ∧
    previous_output spend_info = output row ∧ row' = marked spend_info row.

(** The rows [merge] works on once the loop over [outputs] is through. *)
Definition accumulated (confirmed : history_list) (outputs : output_info_list)
  : history_list :=
  confirmed ++ (unconfirmed_row <$> outputs).

(** What the caller of a run observes when the run reports through the
    handler it was given. *)
Definition completed_with (ec : error_code) (r : result indexer_state unit)
  : Prop :=
  ∃ st, r = Returned tt st ∧ completion_handler_call ec ∈ handled st.

Definition fetched_with (ec : error_code) (history : history_list)
    (r : result indexer_state unit) : Prop :=
  ∃ st, r = Returned tt st ∧ fetch_handler_call ec history ∈ handled st.

(** * Properties *)

(** ** The monad *)

Lemma for_each_app {S X} (body : X → M S unit) (l1 l2 : list X) (s : S) :
  for_each body (l1 ++ l2) s = (for_each body l1 ;;; for_each body l2) s.
Proof.
  revert s. induction l1 as [|x l1 IH]; intros s; simpl; [done|].
  unfold bind in *. destruct (body x s) as [[] s'| |]; [|done..].
  apply IH.
Qed.

(** ** Entries of a multimap *)

Section entries.
Context {V : Type} `{!HasPoint V}.
Implicit Types (map : multimap V) (e : payment_address * V).

Lemma find_entry_None key value_point map :
  find_entry key value_point map = None ↔
  (key, value_point) ∉ entry_key <$> map.
Proof.
  unfold find_entry. rewrite fmap_None, list_find_None, Forall_forall.
  rewrite list_elem_of_fmap. unfold entry_key. split.
  - intros Hno (e & [= -> ->] & He). by apply (Hno e He).
  - intros Hno e He [<- <-]. apply Hno. by exists e.
Qed.

Lemma absent_iff map e : absent map e ↔ entry_key e ∉ entry_key <$> map.
Proof.
  unfold absent, index_does_not_exist. rewrite bool_decide_eq_true.
  apply find_entry_None.
Qed.

Lemma index_does_not_exist_false key value_point map :
  index_does_not_exist key value_point map = false ↔
  (key, value_point) ∈ entry_key <$> map.
Proof.
  unfold index_does_not_exist. rewrite bool_decide_eq_false, find_entry_None.
  split; [apply dec_stable | auto].
Qed.

Lemma find_entry_middle map e rest :
  absent map e →
  find_entry e.1 (point e.2) (map ++ e :: rest) = Some (length map).
Proof.
  unfold absent, index_does_not_exist. rewrite bool_decide_eq_true.
  unfold find_entry. rewrite fmap_None. intros Hnone.
  rewrite list_find_app_r by done. simpl.
  rewrite decide_True by done. done.
Qed.

Lemma absent_app map1 map2 e :
  absent (map1 ++ map2) e ↔ absent map1 e ∧ absent map2 e.
Proof. rewrite !absent_iff, fmap_app, not_elem_of_app. done. Qed.

Lemma absent_singleton e e' :
  absent [e'] e ↔ entry_key e ≠ entry_key e'.
Proof. rewrite absent_iff. simpl. rewrite list_elem_of_singleton. done. Qed.


Lemma index_entry_run asserts e map :
  index_entry asserts e map =
  if asserts && negb (index_does_not_exist e.1 (point e.2) map)
  then Aborted "Transaction is indexed duplicate times!" map
  else Returned tt (map ++ [e]).
Proof.
  destruct e as [key v]. unfold index_entry, bind, get, emplace, modify.
  unfold BITCOIN_ASSERT_MSG. simpl.
  by destruct (asserts && negb (index_does_not_exist key (point v) map)).
Qed.

Lemma deindex_entry_found asserts e map i :
  find_entry e.1 (point e.2) map = Some i →
  deindex_entry asserts e map =
  if asserts && negb (index_does_not_exist e.1 (point e.2) (delete i map))
  then Aborted "Transaction is indexed duplicate times!" (delete i map)
  else Returned tt (delete i map).
Proof.
  intros Hfind. unfold deindex_entry, bind, get. rewrite Hfind.
  unfold BITCOIN_ASSERT_MSG, erase, modify.
  rewrite bool_decide_eq_true_2 by done.
  rewrite andb_false_r. done.
Qed.

Lemma deindex_entry_missing asserts e map :
  find_entry e.1 (point e.2) map = None →
  deindex_entry asserts e map =
  if asserts then Aborted "Can't deindex transaction twice" map
  else Undefined.
Proof.
  intros Hfind. unfold deindex_entry, bind, get. rewrite Hfind.
  unfold BITCOIN_ASSERT_MSG, erase, undefined_behaviour.
  rewrite bool_decide_eq_false_2 by (intros Hne; by apply Hne).
  by destruct asserts.
Qed.

(** Indexing entries either appends all of them or stops at the assertion. *)
Lemma index_entries_cases asserts es map :
  for_each (index_entry asserts) es map = Returned tt (map ++ es) ∨
  (asserts = true ∧ ∃ map',
     for_each (index_entry asserts) es map =
     Aborted "Transaction is indexed duplicate times!" map').
Proof.
  revert map. induction es as [|e es IH]; intros map; simpl.
  { left. unfold ret. by rewrite app_nil_r. }
  unfold bind. rewrite index_entry_run.
  destruct asserts; simpl.
  - destruct (index_does_not_exist e.1 (point e.2) map); simpl.
    + destruct (IH (map ++ [e])) as [->|[_ [map' ->]]].
      * left. by rewrite <-app_assoc.
      * right. eauto.
    + right. eauto.
  - destruct (IH (map ++ [e])) as [->|[? _]]; [|done].
    left. by rewrite <-app_assoc.
Qed.

Lemma index_entries_returned asserts es map map' :
  for_each (index_entry asserts) es map = Returned tt map' →
  map' = map ++ es.
Proof.
  destruct (index_entries_cases asserts es map) as [->|[_ [? ->]]]; congruence.
Qed.

Lemma index_entries_fresh asserts es map :
  NoDup (entry_key <$> es) → Forall (absent map) es →
  for_each (index_entry asserts) es map = Returned tt (map ++ es).
Proof.
  revert map. induction es as [|e es IH]; intros map Hnodup Habsent; simpl.
  { unfold ret. by rewrite app_nil_r. }
  apply NoDup_cons in Hnodup as [Hnotin Hnodup]. simpl in Hnotin.
  apply Forall_cons in Habsent as [He Hes].
  unfold bind. rewrite index_entry_run. unfold absent in He. rewrite He.
  rewrite andb_false_r, IH, <-app_assoc; [done..|].
  apply Forall_forall. intros e' He'. apply absent_app. split.
  - by eapply Forall_forall in Hes.
  - apply absent_singleton. intros Heq. apply Hnotin. rewrite <-Heq.
    by apply list_elem_of_fmap_2.
Qed.


Lemma index_entries_again e es map :
  ¬ absent map e →
  for_each (index_entry true) (e :: es) map =
  Aborted "Transaction is indexed duplicate times!" map.
Proof.
  intros He. simpl. unfold bind. rewrite index_entry_run. simpl.
  unfold absent in He. apply not_true_is_false in He. by rewrite He.
Qed.



(** Deindexing the entries that were just appended gives the map back. *)
Lemma deindex_entries_appended asserts es map :
  NoDup (entry_key <$> es) → Forall (absent map) es →
  for_each (deindex_entry asserts) es (map ++ es) = Returned tt map.
Proof.
  revert map. induction es as [|e es IH]; intros map Hnodup Habsent; simpl.
  { unfold ret. by rewrite app_nil_r. }
  apply NoDup_cons in Hnodup as [Hnotin Hnodup]. simpl in Hnotin.
  apply Forall_cons in Habsent as [He Hes].
  unfold bind.
  rewrite (deindex_entry_found _ _ _ (length map))
    by by apply find_entry_middle.
  rewrite delete_middle.
  assert (absent (map ++ es) e) as Hgone.
  { apply absent_app. split; [done|]. by apply absent_iff. }
  unfold absent in Hgone. rewrite Hgone, andb_false_r. by apply IH.
Qed.


Lemma get_info_list_elem (payaddr : payment_address) (v : V) map :
  v ∈ get_info_list payaddr map ↔ (payaddr, v) ∈ map.
Proof.
  unfold get_info_list, equal_range. rewrite list_elem_of_fmap. split.
  - intros ([key v'] & -> & [Hkey Hin]%list_elem_of_filter).
    simpl in *. by subst.
  - intros Hin. exists (payaddr, v). split; [done|].
    by apply list_elem_of_filter.
Qed.

Lemma get_info_list_app (payaddr : payment_address) map1 map2 :
  get_info_list payaddr (map1 ++ map2) =
  get_info_list payaddr map1 ++ get_info_list payaddr map2.
Proof. unfold get_info_list, equal_range. by rewrite filter_app, fmap_app. Qed.

End entries.

(** ** The loops are [for_each] over the entries *)

Lemma index_inputs_entries asserts tx_hash i tx_inputs map :
  index_inputs asserts tx_hash i tx_inputs map =
  for_each (index_entry asserts) (spend_entries tx_hash i tx_inputs) map.
Proof.
  revert i map. induction tx_inputs as [|input rest IH]; intros i map; simpl.
  { done. }
  destruct (extract (input_script input)) as [payaddr|]; [|apply IH].
  simpl. unfold bind, get, BITCOIN_ASSERT_MSG, emplace, modify.
  rewrite index_entry_run. simpl.
  destruct (asserts && negb _); [done|apply IH].
Qed.

Lemma index_outputs_entries asserts tx_hash i tx_outputs map :
  index_outputs asserts tx_hash i tx_outputs map =
  for_each (index_entry asserts) (output_entries tx_hash i tx_outputs) map.
Proof.
  revert i map. induction tx_outputs as [|output rest IH]; intros i map; simpl.
  { done. }
  destruct (extract (output_script output)) as [payaddr|]; [|apply IH].
  simpl. unfold bind, get, BITCOIN_ASSERT_MSG, emplace, modify.
  rewrite index_entry_run. simpl.
  destruct (asserts && negb _); [done|apply IH].
Qed.

Lemma deindex_inputs_entries asserts tx_hash i tx_inputs map :
  deindex_inputs asserts tx_hash i tx_inputs map =
  for_each (deindex_entry asserts) (spend_entries tx_hash i tx_inputs) map.
Proof.
  revert i map. induction tx_inputs as [|input rest IH]; intros i map; simpl.
  { done. }
  destruct (extract (input_script input)) as [payaddr|]; [|apply IH].
  simpl. unfold bind, get, BITCOIN_ASSERT_MSG.
  destruct (find_entry payaddr {| hash := tx_hash; index := i |} map)
    as [it|] eqn:Hfind.
  - rewrite (deindex_entry_found _ _ _ it) by done.
    unfold erase, modify. simpl. rewrite andb_false_r.
    destruct (asserts && negb _); [done|apply IH].
  - rewrite deindex_entry_missing by done.
    unfold erase, undefined_behaviour. simpl.
    by destruct asserts.
Qed.

Lemma deindex_outputs_entries asserts tx_hash i tx_outputs map :
  deindex_outputs asserts tx_hash i tx_outputs map =
  for_each (deindex_entry asserts) (output_entries tx_hash i tx_outputs) map.
Proof.
  revert i map. induction tx_outputs as [|output rest IH]; intros i map; simpl.
  { done. }
  destruct (extract (output_script output)) as [payaddr|]; [|apply IH].
  simpl. unfold bind, get, BITCOIN_ASSERT_MSG.
  destruct (find_entry payaddr {| hash := tx_hash; index := i |} map)
    as [it|] eqn:Hfind.
  - rewrite (deindex_entry_found _ _ _ it) by done.
    unfold erase, modify. simpl. rewrite andb_false_r.
    destruct (asserts && negb _); [done|apply IH].
  - rewrite deindex_entry_missing by done.
    unfold erase, undefined_behaviour. simpl.
    by destruct asserts.
Qed.

Lemma do_index_entries asserts tx handle_index st :
  do_index asserts tx handle_index st =
  (on_spends_map (for_each (index_entry asserts) (spends_of_tx tx)) ;;;
   on_outputs_map (for_each (index_entry asserts) (outputs_of_tx tx))) st.
Proof.
  unfold do_index, bind, on_spends_map, on_outputs_map.
  rewrite index_inputs_entries.
  destruct (for_each _ _ (spends_map_ st)) as [[] map| |]; [|done..].
  simpl. by rewrite index_outputs_entries.
Qed.

Lemma do_deindex_entries asserts tx handle_deindex st :
  do_deindex asserts tx handle_deindex st =
  (on_spends_map (for_each (deindex_entry asserts) (spends_of_tx tx)) ;;;
   on_outputs_map (for_each (deindex_entry asserts) (outputs_of_tx tx))) st.
Proof.
  unfold do_deindex, bind, on_spends_map, on_outputs_map.
  rewrite deindex_inputs_entries.
  destruct (for_each _ _ (spends_map_ st)) as [[] map| |]; [|done..].
  simpl. by rewrite deindex_outputs_entries.
Qed.

(** ** The points of a transaction's entries are distinct *)

Lemma uint32_succ_small i : 0 ≤ i → i + 1 < 2 ^ 32 → uint32_succ i = i + 1.
Proof. intros. unfold uint32_succ. apply Z.mod_small. lia. Qed.

Lemma spend_entries_index tx_hash i tx_inputs :
  0 ≤ i → i + Z.of_nat (length tx_inputs) ≤ 2 ^ 32 →
  Forall (λ e, i ≤ index (point e.2) < i + Z.of_nat (length tx_inputs))
    (spend_entries tx_hash i tx_inputs).
Proof.
  revert i. induction tx_inputs as [|input rest IH]; intros i Hi Hlen.
  { constructor. }
  assert (Forall
    (λ e, i ≤ index (point e.2) < i + Z.of_nat (length (input :: rest)))
    (spend_entries tx_hash (uint32_succ i) rest)) as Hrest.
  { destruct rest as [|input' rest']; [constructor|].
    simpl length in *. rewrite uint32_succ_small by lia.
    eapply Forall_impl; [apply IH; simpl length; lia|].
    simpl. intros e. simpl length. lia. }
  simpl spend_entries.
  destruct (extract (input_script input)); [|done].
  constructor; [|done]. simpl. unfold point, spend_info_point. simpl. lia.
Qed.

Lemma output_entries_index tx_hash i tx_outputs :
  0 ≤ i → i + Z.of_nat (length tx_outputs) ≤ 2 ^ 32 →
  Forall (λ e, i ≤ index (point e.2) < i + Z.of_nat (length tx_outputs))
    (output_entries tx_hash i tx_outputs).
Proof.
  revert i. induction tx_outputs as [|output rest IH]; intros i Hi Hlen.
  { constructor. }
  assert (Forall
    (λ e, i ≤ index (point e.2) < i + Z.of_nat (length (output :: rest)))
    (output_entries tx_hash (uint32_succ i) rest)) as Hrest.
  { destruct rest as [|output' rest']; [constructor|].
    simpl length in *. rewrite uint32_succ_small by lia.
    eapply Forall_impl; [apply IH; simpl length; lia|].
    simpl. intros e. simpl length. lia. }
  simpl output_entries.
  destruct (extract (output_script output)); [|done].
  constructor; [|done]. simpl. unfold point, output_info_has_point. simpl. lia.
Qed.

Lemma later_index_not_elem_of {V} `{!HasPoint V} (e : payment_address * V)
    (es : list (payment_address * V)) (lo hi : Z) :
  index (point e.2) < lo →
  Forall (λ e', lo ≤ index (point e'.2) < hi) es →
  entry_key e ∉ entry_key <$> es.
Proof.
  intros Hlt Hes (e' & Heq & Hin)%list_elem_of_fmap.
  eapply Forall_forall in Hes; [|exact Hin].
  unfold entry_key in Heq. injection Heq as _ Hpoint.
  rewrite Hpoint in Hlt. lia.
Qed.

Lemma spend_entries_NoDup tx_hash i tx_inputs :
  0 ≤ i → i + Z.of_nat (length tx_inputs) ≤ 2 ^ 32 →
  NoDup (entry_key <$> spend_entries tx_hash i tx_inputs).
Proof.
  revert i. induction tx_inputs as [|input rest IH]; intros i Hi Hlen.
  { constructor. }
  destruct rest as [|input' rest'].
  { simpl. destruct (extract (input_script input)); simpl;
      [apply NoDup_singleton | constructor]. }
  simpl length in *.
  assert (uint32_succ i = i + 1) as Hsucc
    by (apply uint32_succ_small; lia).
  simpl spend_entries. rewrite Hsucc.
  change (NoDup (entry_key <$>
    match extract (input_script input) with
    | Some payaddr =>
        (payaddr,
         {| spend_point := {| hash := tx_hash; index := i |};
            previous_output := input_previous_output input |})
        :: spend_entries tx_hash (i + 1) (input' :: rest')
    | None => spend_entries tx_hash (i + 1) (input' :: rest')
    end)).
  assert (NoDup (entry_key <$>
    spend_entries tx_hash (i + 1) (input' :: rest'))) as Hrest
    by (apply IH; simpl length; lia).
  destruct (extract (input_script input)) as [payaddr|]; [|done].
  rewrite fmap_cons. apply NoDup_cons. split; [|done].
  eapply (later_index_not_elem_of _ _ (i + 1)).
  - simpl. unfold point, spend_info_point. simpl. lia.
  - apply spend_entries_index; simpl length; lia.
Qed.

Lemma output_entries_NoDup tx_hash i tx_outputs :
  0 ≤ i → i + Z.of_nat (length tx_outputs) ≤ 2 ^ 32 →
  NoDup (entry_key <$> output_entries tx_hash i tx_outputs).
Proof.
  revert i. induction tx_outputs as [|output rest IH]; intros i Hi Hlen.
  { constructor. }
  destruct rest as [|output' rest'].
  { simpl. destruct (extract (output_script output)); simpl;
      [apply NoDup_singleton | constructor]. }
  simpl length in *.
  assert (uint32_succ i = i + 1) as Hsucc
    by (apply uint32_succ_small; lia).
  simpl output_entries. rewrite Hsucc.
  change (NoDup (entry_key <$>
    match extract (output_script output) with
    | Some payaddr =>
        (payaddr,
         {| output_info_point := {| hash := tx_hash; index := i |};
            value := output_value output |})
        :: output_entries tx_hash (i + 1) (output' :: rest')
    | None => output_entries tx_hash (i + 1) (output' :: rest')
    end)).
  assert (NoDup (entry_key <$>
    output_entries tx_hash (i + 1) (output' :: rest'))) as Hrest
    by (apply IH; simpl length; lia).
  destruct (extract (output_script output)) as [payaddr|]; [|done].
  rewrite fmap_cons. apply NoDup_cons. split; [|done].
  eapply (later_index_not_elem_of _ _ (i + 1)).
  - simpl. unfold point, output_info_has_point. simpl. lia.
  - apply output_entries_index; simpl length; lia.
Qed.

Lemma tx_entries_NoDup tx :
  countable_by_uint32 tx →
  NoDup (entry_key <$> spends_of_tx tx) ∧
  NoDup (entry_key <$> outputs_of_tx tx).
Proof.
  intros [Hin Hout]. split.
  - apply spend_entries_NoDup; lia.
  - apply output_entries_NoDup; lia.
Qed.

(** ** Runs of [do_index] and [do_deindex] *)

Lemma indexer_state_eta st :
  {| spends_map_ := spends_map_ st; outputs_map_ := outputs_map_ st;
     handled := handled st |} = st.
Proof. by destruct st. Qed.

Lemma do_index_returned asserts tx handle_index st st1 :
  do_index asserts tx handle_index st = Returned tt st1 →
  st1 = indexed tx st.
Proof.
  rewrite do_index_entries. unfold bind, on_spends_map, on_outputs_map.
  destruct (index_entries_cases asserts (spends_of_tx tx) (spends_map_ st))
    as [->|[_ [? ->]]]; [|done].
  simpl.
  destruct (index_entries_cases asserts (outputs_of_tx tx) (outputs_map_ st))
    as [->|[_ [? ->]]]; [|done].
  by intros [= <-].
Qed.

(** After [index(tx)] a query gives what it gave before and, after that, the
    entries of [tx] under the address. *)
Lemma do_index_query asserts tx handle_index st st1 payaddr :
  do_index asserts tx handle_index st = Returned tt st1 →
  get_info_list payaddr (spends_map_ st1) =
    get_info_list payaddr (spends_map_ st) ++
    get_info_list payaddr (spends_of_tx tx) ∧
  get_info_list payaddr (outputs_map_ st1) =
    get_info_list payaddr (outputs_map_ st) ++
    get_info_list payaddr (outputs_of_tx tx).
Proof.
  intros ->%do_index_returned. simpl. by rewrite !get_info_list_app.
Qed.

Lemma do_index_fresh asserts tx handle_index st :
  countable_by_uint32 tx → not_indexed tx st →
  do_index asserts tx handle_index st = Returned tt (indexed tx st).
Proof.
  intros [Hs Ho]%tx_entries_NoDup [Has Hao].
  rewrite do_index_entries. unfold bind, on_spends_map, on_outputs_map.
  rewrite index_entries_fresh by done. simpl.
  by rewrite index_entries_fresh by done.
Qed.

Lemma do_deindex_indexed asserts tx handle_deindex st :
  countable_by_uint32 tx → not_indexed tx st →
  do_deindex asserts tx handle_deindex (indexed tx st) = Returned tt st.
Proof.
  intros [Hs Ho]%tx_entries_NoDup [Has Hao].
  rewrite do_deindex_entries. unfold bind, on_spends_map, on_outputs_map.
  simpl. rewrite deindex_entries_appended by done. simpl.
  rewrite deindex_entries_appended by done.
  by rewrite indexer_state_eta.
Qed.

Lemma not_absent_middle {V} `{!HasPoint V} (map es : list (payment_address * V))
    (e : payment_address * V) :
  ¬ absent (map ++ e :: es) e.
Proof.
  rewrite absent_iff. intros Hno. apply Hno.
  apply list_elem_of_fmap_2, elem_of_app. right. apply elem_of_cons. by left.
Qed.

Lemma do_query_run payaddr handle_query st :
  do_query payaddr handle_query st =
  handle_query no_error
    (output_infos (get_info_list payaddr (outputs_map_ st)))
    (spend_infos (get_info_list payaddr (spends_map_ st))) st.
Proof. done. Qed.

(** ** The claims about the address index *)

(** C1 (the code departs from its header). [do_query] hands its handler all
    outputs indexed under the address as the second argument and all spends
    indexed under it as the third: the lists are complete, but they come in
    the opposite order of the declared signature (ec, spends, outputs). *)
Theorem do_query_passes_outputs_second payaddr st :
  do_query payaddr record_query st =
    Returned tt
      {| spends_map_ := spends_map_ st; outputs_map_ := outputs_map_ st;
         handled :=
           handled st ++
           [query_handler_call no_error
              (output_infos (get_info_list payaddr (outputs_map_ st)))
              (spend_infos (get_info_list payaddr (spends_map_ st)))] |} ∧
  (∀ output_info,
     output_info ∈ get_info_list payaddr (outputs_map_ st) ↔
     (payaddr, output_info) ∈ outputs_map_ st) ∧
  (∀ spend_info,
     spend_info ∈ get_info_list payaddr (spends_map_ st) ↔
     (payaddr, spend_info) ∈ spends_map_ st) ∧
  ¬ declared_query_arguments
      (output_infos (get_info_list payaddr (outputs_map_ st)))
      (spend_infos (get_info_list payaddr (spends_map_ st))).
Proof.
  split_and!.
  - done.
  - intros. apply get_info_list_elem.
  - intros. apply get_info_list_elem.
  - intros [[spends Hspends] _]. discriminate.
Qed.


(** C6 (amended). Once [index(tx)] has returned, a second [index(tx)] of a
    transaction with an input or output that has an address stops, with
    assertions compiled in, at the failed assertion "Transaction is indexed
    duplicate times!"; both maps are then as the first call left them. *)
Theorem index_again_aborts asserts tx handler handler' st st1 :
  touches_an_address tx →
  do_index asserts tx handler st = Returned tt st1 →
  do_index true tx handler' st1 =
    Aborted "Transaction is indexed duplicate times!" st1.
Proof.
  intros Htouch ->%do_index_returned.
  rewrite do_index_entries. unfold bind, on_spends_map, on_outputs_map.
  unfold touches_an_address in Htouch. unfold indexed. simpl.
  destruct (spends_of_tx tx) as [|e es].
  - simpl. destruct (outputs_of_tx tx) as [|e es]; [by destruct Htouch|].
    rewrite index_entries_again by apply not_absent_middle. done.
  - rewrite index_entries_again by apply not_absent_middle. done.
Qed.


(** C8. For a transaction that is not indexed (and whose inputs and outputs
    the 32-bit loop counters can number), [index(tx)] returns, the
    [deindex(tx)] that follows returns too, and after it both maps are as
    they were, so that every query, for whatever address, gives what it gave
    before [index(tx)]: the handler gets the same arguments. *)
Theorem index_then_deindex_restores asserts tx handle_index handle_deindex st :
  countable_by_uint32 tx →
  not_indexed tx st →
  ∃ st1 st2,
    do_index asserts tx handle_index st = Returned tt st1 ∧
    do_deindex asserts tx handle_deindex st1 = Returned tt st2 ∧
    spends_map_ st2 = spends_map_ st ∧
    outputs_map_ st2 = outputs_map_ st ∧
    ∀ payaddr handle_query,
      do_query payaddr handle_query st2 = do_query payaddr handle_query st.
Proof.
  intros Hcount Hfresh. exists (indexed tx st), st. split_and!; [| |done..].
  - by apply do_index_fresh.
  - by apply do_deindex_indexed.
Qed.

(** ** Runs of the merger *)

Lemma check_rows_run {S} asserts (P : history_row → Prop)
    `{!∀ row, Decision (P row)} (text : string) (rows : history_list) (s : S) :
  for_each (λ row, BITCOIN_ASSERT asserts (bool_decide (P row)) text) rows s =
  if asserts && negb (bool_decide (Forall P rows))
  then Aborted text s else Returned tt s.
Proof.
  induction rows as [|row rows IH]; cbn [for_each].
  { rewrite bool_decide_eq_true_2 by constructor. by rewrite andb_false_r. }
  unfold bind, BITCOIN_ASSERT, BITCOIN_ASSERT_MSG in *.
  destruct asserts; [|done].
  cbn [andb] in *. destruct (decide (P row)) as [Hrow|Hrow].
  - rewrite (bool_decide_eq_true_2 (P row)) by done. simpl. rewrite IH.
    destruct (decide (Forall P rows)) as [Hrows|Hrows].
    + rewrite !bool_decide_eq_true_2 by (done || by constructor). done.
    + rewrite !bool_decide_eq_false_2; [done| |done].
      by intros [_ ?]%Forall_cons.
  - rewrite (bool_decide_eq_false_2 (P row)) by done. simpl.
    rewrite bool_decide_eq_false_2; [done|]. by intros [? _]%Forall_cons.
Qed.

Lemma add_output_run asserts output_info history :
  add_output asserts output_info history =
  if asserts &&
     negb (bool_decide
       (Forall (λ row, output row ≠ output_info_point output_info) history))
  then Aborted "row.output != output_info.point" history
  else Returned tt (history ++ [unconfirmed_row output_info]).
Proof.
  unfold add_output, bind, get. rewrite check_rows_run.
  by destruct (asserts && negb _).
Qed.

(** The loop over [outputs] appends one row per output, or stops at the
    assertion. *)
Lemma add_outputs_cases asserts outputs history :
  for_each (add_output asserts) outputs history =
    Returned tt (history ++ (unconfirmed_row <$> outputs)) ∨
  (asserts = true ∧ ∃ added,
     for_each (add_output asserts) outputs history =
     Aborted "row.output != output_info.point" (history ++ added)).
Proof.
  revert history.
  induction outputs as [|output_info outputs IH]; intros history; simpl.
  { left. unfold ret. by rewrite app_nil_r. }
  unfold bind. rewrite add_output_run.
  destruct (asserts && negb _) eqn:Hcheck.
  - right. apply andb_true_iff in Hcheck as [-> _]. split; [done|].
    exists []. by rewrite app_nil_r.
  - destruct (IH (history ++ [unconfirmed_row output_info]))
      as [->|[-> [added ->]]].
    + left. by rewrite <-app_assoc.
    + right. split; [done|]. eexists. by rewrite <-app_assoc.
Qed.

Lemma mark_rows_find asserts spend_info rows :
  mark_rows asserts spend_info rows =
  match list_find (λ row, output row = previous_output spend_info) rows with
  | None => Returned false rows
  | Some (i, row) =>
      if asserts && negb (bool_decide (spend_height row = max_height))
      then Aborted "row.spend_height == max_height" rows
      else if asserts && negb (bool_decide (spend row = unspent))
      then Aborted "(row.spend == input_point{null_hash, max_index})" rows
      else Returned true (<[i := marked spend_info row]> rows)
  end.
Proof.
  induction rows as [|row rest IH]; [done|].
  simpl. destruct (decide (output row ≠ previous_output spend_info))
    as [Hne|Heq].
  - rewrite decide_False by done. rewrite IH.
    destruct (list_find _ rest) as [[i row']|]; simpl; [|done].
    destruct (asserts && negb (bool_decide (spend_height row' = max_height)));
      [done|].
    by destruct (asserts && negb (bool_decide (spend row' = unspent))).
  - apply dec_stable in Heq. rewrite decide_True by done. simpl.
    unfold bind, BITCOIN_ASSERT, BITCOIN_ASSERT_MSG, modify, ret.
    destruct (asserts && negb (bool_decide (spend_height row = max_height)));
      [done|].
    by destruct (asserts && negb (bool_decide (spend row = unspent))).
Qed.

Lemma mark_spend_run asserts spend_info history :
  mark_spend asserts spend_info history =
  match list_find (λ row, output row = previous_output spend_info) history with
  | None =>
      if asserts
      then Aborted "Couldn't find output for adding spend" history
      else Returned tt history
  | Some (i, row) =>
      if asserts && negb (bool_decide (spend_height row = max_height))
      then Aborted "row.spend_height == max_height" history
      else if asserts && negb (bool_decide (spend row = unspent))
      then Aborted "(row.spend == input_point{null_hash, max_index})" history
      else Returned tt (<[i := marked spend_info row]> history)
  end.
Proof.
  unfold mark_spend, bind. rewrite mark_rows_find.
  destruct (list_find _ history) as [[i row]|].
  - destruct (asserts && negb (bool_decide (spend_height row = max_height)));
      [done|].
    destruct (asserts && negb (bool_decide (spend row = unspent))); [done|].
    unfold BITCOIN_ASSERT_MSG. simpl. by rewrite andb_false_r.
  - unfold BITCOIN_ASSERT_MSG. simpl. rewrite andb_true_r.
    by destruct asserts.
Qed.

Lemma mark_spend_cases spend_info (history : history_list) :
  (∃ history', mark_spend true spend_info history = Returned tt history') ∨
  (∃ msg, mark_spend true spend_info history = Aborted msg history).
Proof.
  rewrite mark_spend_run.
  destruct (list_find _ history) as [[i row]|]; [|eauto].
  destruct (true && negb (bool_decide (spend_height row = max_height)));
    [eauto|].
  destruct (true && negb (bool_decide (spend row = unspent))); eauto.
Qed.

Lemma marked_by_refl spends (history : history_list) :
  Forall2 (marked_by spends) history history.
Proof. apply Forall_Forall2_diag, Forall_forall. intros row _. by left. Qed.

Lemma marked_by_output spends row row' :
  marked_by spends row row' →
  output row' = output row ∧ output_height row' = output_height row ∧
  row_value row' = row_value row.
Proof. by intros [->|(s & _ & _ & ->)]. Qed.


Lemma marked_by_trans spend_info spends (h1 h2 h3 : history_list) :
  Forall2 (marked_by [spend_info]) h1 h2 →
  Forall2 (marked_by spends) h2 h3 →
  Forall2 (marked_by (spend_info :: spends)) h1 h3.
Proof.
  intros H12. revert h3.
  induction H12 as [|row1 row2 h1 h2 Hrow H12 IH]; intros h3 H23.
  { inv H23. constructor. }
  inv H23. constructor; [|by apply IH].
  match goal with H : marked_by spends row2 _ |- _ => rename H into Hrow' end.
  destruct Hrow as [->|(s & ->%list_elem_of_singleton & Hs & ->)].
  - destruct Hrow' as [->|(s' & Hin & Hs' & ->)]; [by left|].
    right. exists s'. split_and!; [by apply elem_of_cons; right|done..].
  - destruct Hrow' as [->|(s' & Hin & Hs' & ->)].
    + right. exists spend_info. split_and!; [by apply elem_of_cons; left|done..].
    + right. exists s'. split_and!; [by apply elem_of_cons; right|done..].
Qed.

(** What a round of the loop over [spends] that returns has done. *)
Lemma mark_spend_returned asserts spend_info history history' :
  mark_spend asserts spend_info history = Returned tt history' →
  (asserts = false ∧ history' = history ∧
   Forall (λ row, output row ≠ previous_output spend_info) history) ∨
  ∃ i row,
    history !! i = Some row ∧
    output row = previous_output spend_info ∧
    (∀ j row', history !! j = Some row' → j < i →
               output row' ≠ previous_output spend_info)%nat ∧
    (asserts = true → spend_height row = max_height ∧ spend row = unspent) ∧
    history' = <[i := marked spend_info row]> history.
Proof.
  rewrite mark_spend_run.
  destruct (list_find _ history) as [[i row]|] eqn:Hfind.
  - apply list_find_Some in Hfind as (Hi & Hrow & Hfirst).
    destruct asserts; simpl.
    + destruct (decide (spend_height row = max_height)) as [Hheight|Hheight];
        [rewrite (bool_decide_eq_true_2 _ Hheight)
        |by rewrite (bool_decide_eq_false_2 _ Hheight)].
      destruct (decide (spend row = unspent)) as [Hspend|Hspend];
        [rewrite (bool_decide_eq_true_2 _ Hspend)
        |by rewrite (bool_decide_eq_false_2 _ Hspend)].
      simpl. intros [= <-]. right. exists i, row. by split_and!.
    + intros [= <-]. right. exists i, row. by split_and!.
  - apply list_find_None in Hfind. destruct asserts; [done|].
    intros [= <-]. by left.
Qed.

Lemma mark_spend_marked_by asserts spend_info history history' :
  mark_spend asserts spend_info history = Returned tt history' →
  Forall2 (marked_by [spend_info]) history history'.
Proof.
  intros [(_ & -> & _)|(i & row & Hi & Hrow & _ & _ & ->)]%mark_spend_returned.
  { apply marked_by_refl. }
  rewrite <-(list_insert_id history i row) at 1 by done.
  apply Forall2_insert; [apply marked_by_refl|].
  right. exists spend_info. split_and!; [by apply list_elem_of_singleton|done..].
Qed.

Lemma mark_spends_marked_by asserts spends history history' :
  for_each (mark_spend asserts) spends history = Returned tt history' →
  Forall2 (marked_by spends) history history'.
Proof.
  revert history. induction spends as [|s spends IH]; intros history; simpl.
  { intros [= <-]. apply marked_by_refl. }
  unfold bind.
  destruct (mark_spend asserts s history) as [[] history1| |] eqn:Hstep;
    [|done..].
  intros Hrest. eapply marked_by_trans.
  - by eapply mark_spend_marked_by.
  - by apply IH.
Qed.

(** With assertions, a round that returns leaves every spent row alone. *)
Lemma mark_spend_write_once spend_info history history' i row :
  mark_spend true spend_info history = Returned tt history' →
  history !! i = Some row → spend_height row ≠ max_height →
  history' !! i = Some row.
Proof.
  intros [(? & _)|(j & row' & Hj & _ & _ & Hunspent & ->)]%mark_spend_returned
    Hi Hspent; [done|].
  destruct (Hunspent eq_refl) as [Hheight _].
  rewrite list_lookup_insert_ne; [done|]. intros ->. congruence.
Qed.

(** With assertions, a run of the loop over [spends] leaves every spent row
    alone, whether it returns or stops at an assertion. *)
Lemma mark_spends_never_rewrite spends (history : history_list) :
  match for_each (mark_spend true) spends history with
  | Returned _ history' | Aborted _ history' =>
      ∀ i row, history !! i = Some row → spend_height row ≠ max_height →
               history' !! i = Some row
  | Undefined => False
  end.
Proof.
  revert history. induction spends as [|s spends IH]; intros history; simpl.
  { done. }
  unfold bind.
  destruct (mark_spend_cases s history) as [[history1 Hret]|[msg Hab]].
  - rewrite Hret. specialize (IH history1).
    destruct (for_each (mark_spend true) spends history1)
      as [[] history'|msg history'|]; [| |done];
      intros i row Hi Hspent; apply IH; [|done| |done];
      by eapply mark_spend_write_once.
  - rewrite Hab. done.
Qed.

Lemma mark_spends_write_once spends history history' i row :
  for_each (mark_spend true) spends history = Returned tt history' →
  history !! i = Some row → spend_height row ≠ max_height →
  history' !! i = Some row.
Proof.
  revert history. induction spends as [|s spends IH]; intros history; simpl.
  { by intros [= <-]. }
  unfold bind.
  destruct (mark_spend true s history) as [[] history1| |] eqn:Hstep;
    [|done..].
  intros Hrest Hi Hspent. apply (IH history1); [done| |done].
  by eapply mark_spend_write_once.
Qed.


Lemma merge_returned asserts outputs spends confirmed result :
  merge asserts outputs spends confirmed = Returned tt result →
  for_each (add_output asserts) outputs confirmed =
    Returned tt (accumulated confirmed outputs) ∧
  for_each (mark_spend asserts) spends (accumulated confirmed outputs) =
    Returned tt result.
Proof.
  unfold merge, bind.
  destruct (add_outputs_cases asserts outputs confirmed)
    as [Hacc|[_ [? Habort]]].
  - rewrite Hacc. done.
  - by rewrite Habort.
Qed.

Lemma indexer_history_fetched_returned asserts outputs spends history
    handle_fetch st result :
  merge asserts outputs spends history = Returned tt result →
  indexer_history_fetched asserts no_error outputs spends history
    handle_fetch st =
  handle_fetch no_error result st.
Proof. unfold indexer_history_fetched. simpl. by intros ->. Qed.

Lemma indexer_history_fetched_aborted asserts outputs spends history
    handle_fetch st msg history' :
  merge asserts outputs spends history = Aborted msg history' →
  indexer_history_fetched asserts no_error outputs spends history
    handle_fetch st =
  Aborted msg st.
Proof. unfold indexer_history_fetched. simpl. by intros ->. Qed.

(** The round of a spend whose output is in one unspent row marks that row,
    with or without assertions. *)
Lemma mark_spend_sets_row asserts spend_info (history : history_list) i row :
  history !! i = Some row →
  output row = previous_output spend_info →
  (∀ j row', history !! j = Some row' →
             output row' = previous_output spend_info → j = i) →
  spend_height row = max_height → spend row = unspent →
  mark_spend asserts spend_info history =
    Returned tt (<[i := marked spend_info row]> history).
Proof.
  intros Hi Hrow Hunique Hheight Hspend. rewrite mark_spend_run.
  assert (list_find (λ row, output row = previous_output spend_info) history
          = Some (i, row)) as ->.
  { apply list_find_Some. split_and!; [done..|].
    intros j row' Hj Hlt Hrow'. specialize (Hunique j row' Hj Hrow'). lia. }
  rewrite !bool_decide_eq_true_2 by done. by rewrite !andb_false_r.
Qed.

(** The round of a spend whose output is in no row. *)
Lemma mark_spend_unmatched asserts spend_info (history : history_list) :
  Forall (λ row, output row ≠ previous_output spend_info) history →
  mark_spend asserts spend_info history =
    if asserts
    then Aborted "Couldn't find output for adding spend" history
    else Returned tt history.
Proof.
  intros Hnone. rewrite mark_spend_run.
  assert (list_find (λ row, output row = previous_output spend_info) history
          = None) as ->; [|done].
  apply list_find_None. eapply Forall_impl; [exact Hnone|]. done.
Qed.

Lemma mark_spends_unmatched spends spend_info (history : history_list) :
  spend_info ∈ spends →
  Forall (λ row, output row ≠ previous_output spend_info) history →
  ∃ msg history', for_each (mark_spend true) spends history =
                  Aborted msg history'.
Proof.
  revert history. induction spends as [|s spends IH]; intros history.
  { by intros ?%elem_of_nil. }
  intros [->|Hin]%elem_of_cons Hnone; simpl; unfold bind.
  - rewrite mark_spend_unmatched by done. eauto.
  - destruct (mark_spend_cases s history) as [[history1 Hret]|[msg Hab]].
    + rewrite Hret. apply IH; [done|].
      apply mark_spend_marked_by in Hret.
      apply Forall_lookup. intros j row1 Hj Heq.
      destruct (Forall2_lookup_r _ _ _ _ _ Hret Hj) as (row0 & Hj0 & Hrow0).
      apply marked_by_output in Hrow0 as [Hout _].
      eapply Forall_lookup in Hnone; [|exact Hj0]. congruence.
    + rewrite Hab. eauto.
Qed.

(** With assertions, the loop over [outputs] returns when the points of the
    outputs differ from one another and from the outputs of the rows. *)
Lemma add_outputs_returns asserts outputs (history : history_list) :
  NoDup (output_info_point <$> outputs) →
  (∀ output_info row, output_info ∈ outputs → row ∈ history →
                      output row ≠ output_info_point output_info) →
  for_each (add_output asserts) outputs history =
    Returned tt (history ++ (unconfirmed_row <$> outputs)).
Proof.
  revert history.
  induction outputs as [|o outputs IH]; intros history Hnodup Hfresh; simpl.
  { unfold ret. by rewrite app_nil_r. }
  rewrite fmap_cons in Hnodup. apply NoDup_cons in Hnodup as [Hnotin Hnodup].
  unfold bind. rewrite add_output_run.
  rewrite bool_decide_eq_true_2.
  - rewrite andb_false_r, IH, <-app_assoc; [done..|].
    intros o' row Ho' [Hrow|Hrow]%elem_of_app.
    + apply Hfresh; [by apply elem_of_cons; right|done].
    + apply list_elem_of_singleton in Hrow as ->.
      simpl. intros Heq. apply Hnotin. rewrite Heq.
      by apply list_elem_of_fmap_2.
  - apply Forall_forall. intros row Hrow.
    apply Hfresh; [by apply elem_of_cons; left|done].
Qed.

(** With assertions, the loop over [spends] returns when the spends spend
    different outputs, each the output of some row, and of unspent rows
    only. *)
Lemma mark_spends_returns spends (history : history_list) :
  NoDup (previous_output <$> spends) →
  (∀ spend_info, spend_info ∈ spends →
     ∃ row, row ∈ history ∧ output row = previous_output spend_info) →
  (∀ spend_info row, spend_info ∈ spends → row ∈ history →
     output row = previous_output spend_info →
     spend_height row = max_height ∧ spend row = unspent) →
  ∃ history', for_each (mark_spend true) spends history = Returned tt history'.
Proof.
  revert history.
  induction spends as [|s spends IH]; intros history Hnodup Hsome Hunspent.
  { by eexists. }
  rewrite fmap_cons in Hnodup. apply NoDup_cons in Hnodup as [Hnotin Hnodup].
  simpl. unfold bind. rewrite mark_spend_run.
  destruct (list_find _ history) as [[i row]|] eqn:Hfind.
  - apply list_find_Some in Hfind as (Hi & Hrow & _).
    destruct (Hunspent s row) as [Hheight Hspend];
      [by apply elem_of_cons; left|by eapply list_elem_of_lookup_2|done|].
    rewrite !bool_decide_eq_true_2 by done. simpl.
    assert (∀ s', s' ∈ spends → previous_output s' ≠ output row) as Hother.
    { intros s' Hs' Heq. apply Hnotin. rewrite <-Hrow, <-Heq.
      by apply list_elem_of_fmap_2. }
    apply IH; [done|..].
    + intros s' Hs'.
      destruct (Hsome s') as (row' & [j Hj]%list_elem_of_lookup & Hrow');
        [by apply elem_of_cons; right|].
      exists row'. split; [|done].
      apply list_elem_of_lookup. exists j.
      rewrite list_lookup_insert_ne; [done|].
      intros ->. apply (Hother s' Hs'). congruence.
    + intros s' row' Hs' [j Hj]%list_elem_of_lookup Hrow'.
      apply list_lookup_insert_Some in Hj as [(-> & <- & _)|[_ Hj]].
      * destruct (Hother s' Hs'). by rewrite <-Hrow'.
      * apply (Hunspent s' row'); [by apply elem_of_cons; right| |done].
        by eapply list_elem_of_lookup_2.
  - apply list_find_None in Hfind.
    destruct (Hsome s) as (row & Hin & Hrow); [by apply elem_of_cons; left|].
    eapply Forall_forall in Hfind; [|exact Hin]. done.
Qed.

(** X24. With assertions [merge] returns on consistent inputs: unconfirmed
    outputs that differ from one another and from the confirmed ones, and
    spends of different outputs, each in the accumulated list and in unspent
    rows only. *)
Lemma merge_returns outputs spends confirmed :
  NoDup (output_info_point <$> outputs) →
  (∀ output_info row, output_info ∈ outputs → row ∈ confirmed →
                      output row ≠ output_info_point output_info) →
  NoDup (previous_output <$> spends) →
  (∀ spend_info, spend_info ∈ spends →
     ∃ row, row ∈ accumulated confirmed outputs ∧
            output row = previous_output spend_info) →
  (∀ spend_info row, spend_info ∈ spends →
     row ∈ accumulated confirmed outputs →
     output row = previous_output spend_info →
     spend_height row = max_height ∧ spend row = unspent) →
  ∃ result, merge true outputs spends confirmed = Returned tt result.
Proof.
  intros Houtputs Hfresh Hspends Hsome Hunspent.
  unfold merge, bind. rewrite add_outputs_returns by done.
  by apply mark_spends_returns.
Qed.

(** Without assertions [merge] always returns. *)
Lemma merge_returns_without_assertions outputs spends confirmed :
  ∃ result, merge false outputs spends confirmed = Returned tt result.
Proof.
  unfold merge, bind.
  destruct (add_outputs_cases false outputs confirmed) as [->|[? _]]; [|done].
  generalize (confirmed ++ (unconfirmed_row <$> outputs)).
  induction spends as [|s spends IH]; intros history; simpl; [by eexists|].
  unfold bind. rewrite mark_spend_run.
  destruct (list_find _ history) as [[i row]|]; simpl; apply IH.
Qed.

(** ** The claims about the history merger *)


(** C4. When [merge] returns, the result has, for every unconfirmed output,
    a row with that output's point and value, [output_height] [0], and
    either no spend (the sentinel input point and [max_height]) or the input
    point of an unconfirmed spend of that output, with [spend_height] [0]. *)
Theorem merge_adds_unconfirmed_outputs asserts outputs spends confirmed result
    output_info :
  merge asserts outputs spends confirmed = Returned tt result →
  output_info ∈ outputs →
  {| output := output_info_point output_info;
     output_height := 0;
     row_value := value output_info;
     spend := {| hash := null_hash; index := max_index |};
     spend_height := max_height |} ∈ result ∨
  ∃ spend_info,
    spend_info ∈ spends ∧
    previous_output spend_info = output_info_point output_info ∧
    {| output := output_info_point output_info;
       output_height := 0;
       row_value := value output_info;
       spend := spend_point spend_info;
       spend_height := 0 |} ∈ result.
Proof.
  intros [_ Hspends%mark_spends_marked_by]%merge_returned Hin.
  assert (unconfirmed_row output_info ∈ accumulated confirmed outputs) as Hacc.
  { apply elem_of_app. right. by apply list_elem_of_fmap_2. }
  apply list_elem_of_lookup in Hacc as [i Hi].
  destruct (Forall2_lookup_l _ _ _ _ _ Hspends Hi)
    as (row' & Hi' & [->|(s & Hs & Hprev & ->)]).
  - left. by eapply list_elem_of_lookup_2.
  - right. exists s. split_and!; [done..|]. by eapply list_elem_of_lookup_2.
Qed.

(** C5 (amended). If the previous output of some unconfirmed spend is the
    output of no row of the accumulated list, then, with assertions compiled
    in, [merge] stops at a failed assertion, which is "Couldn't find output
    for adding spend" in the round of that spend, and the fetch handler is
    not called: the state is as it was. *)
Theorem unmatched_spend_aborts outputs spends confirmed spend_info
    handle_fetch st :
  spend_info ∈ spends →
  Forall (λ row, output row ≠ previous_output spend_info)
    (accumulated confirmed outputs) →
  mark_spend true spend_info (accumulated confirmed outputs) =
    Aborted "Couldn't find output for adding spend"
      (accumulated confirmed outputs) ∧
  ∃ msg,
    indexer_history_fetched true no_error outputs spends confirmed
      handle_fetch st = Aborted msg st.
Proof.
  intros Hin Hnone. split; [by rewrite mark_spend_unmatched|].
  destruct (add_outputs_cases true outputs confirmed)
    as [Hacc|[_ [history' Habort]]].
  - destruct (mark_spends_unmatched spends spend_info _ Hin Hnone)
      as (msg & history' & Habort).
    exists msg. eapply indexer_history_fetched_aborted.
    unfold merge, bind. rewrite Hacc. exact Habort.
  - eexists. eapply indexer_history_fetched_aborted.
    unfold merge, bind. by rewrite Habort.
Qed.

(** C9 (amended). With assertions compiled in, [merge] assigns the spend
    of a row at most once, however the run ends (returning, or stopped at an
    assertion, with the rows as they then are): a confirmed row that is
    already spent
    ([spend_height] other than [max_height]) is still as it was, and so is
    every row that was spent, in whatever way, when [merge] had dealt with
    the spends [before]. *)
Theorem merge_writes_spend_once outputs before after confirmed :
  match merge true outputs (before ++ after) confirmed with
  | Returned _ result | Aborted _ result =>
      (∀ i row, confirmed !! i = Some row →
                spend_height row ≠ max_height → result !! i = Some row) ∧
      (∀ mid, merge true outputs before confirmed = Returned tt mid →
         ∀ i row, mid !! i = Some row →
                  spend_height row ≠ max_height → result !! i = Some row)
  | Undefined => False
  end.
Proof.
  unfold merge, bind.
  destruct (add_outputs_cases true outputs confirmed)
    as [Hacc|[_ [added Habort]]].
  - rewrite Hacc.
    pose proof (mark_spends_never_rewrite (before ++ after)
                  (confirmed ++ (unconfirmed_row <$> outputs))) as Hall.
    rewrite for_each_app in Hall |- *. unfold bind in Hall |- *.
    destruct (for_each (mark_spend true) before _)
      as [[] mid'|msg mid'|] eqn:Hbefore; [| |done].
    + pose proof (mark_spends_never_rewrite after mid') as Hafter.
      destruct (for_each (mark_spend true) after mid')
        as [[] result|msg result|]; [| |done].
      * split; [|by intros mid [= <-]].
        intros i row Hi. apply Hall. by apply lookup_app_l_Some.
      * split; [|by intros mid [= <-]].
        intros i row Hi. apply Hall. by apply lookup_app_l_Some.
    + split; [|done].
      intros i row Hi. apply Hall. by apply lookup_app_l_Some.
  - rewrite Habort. split; [|done].
    intros i row Hi _. by apply lookup_app_l_Some.
Qed.

(** C10. When [merge] returns, the result is as long as the confirmed rows
    and the unconfirmed outputs together, and it has every confirmed row at
    the place it had, with the same [output], [output_height] and [value]:
    confirmed rows are neither dropped nor moved, only their [spend] and
    [spend_height] can differ, and what is new comes after them. *)
Theorem merge_keeps_confirmed_rows asserts outputs spends confirmed result :
  merge asserts outputs spends confirmed = Returned tt result →
  length result = (length confirmed + length outputs)%nat ∧
  ∀ i row, confirmed !! i = Some row →
    ∃ row', result !! i = Some row' ∧
      output row' = output row ∧
      output_height row' = output_height row ∧
      row_value row' = row_value row.
Proof.
  intros [_ Hspends%mark_spends_marked_by]%merge_returned. split.
  - apply Forall2_length in Hspends. rewrite <-Hspends.
    unfold accumulated. by rewrite length_app, length_fmap.
  - intros i row Hi.
    destruct (Forall2_lookup_l _ _ _ _ _ Hspends
                (lookup_app_l_Some _ (unconfirmed_row <$> outputs) _ _ Hi))
      as (row' & Hi' & Hrow').
    exists row'. split; [done|]. by apply marked_by_output in Hrow'.
Qed.

(** ** What the handlers of [index] and [deindex] see *)

Lemma on_spends_map_handled {A} (m : M (multimap spend_info_type) A) st :
  match on_spends_map m st with
  | Returned _ st' | Aborted _ st' => handled st' = handled st
  | Undefined => True
  end.
Proof. unfold on_spends_map. by destruct (m (spends_map_ st)). Qed.

Lemma on_outputs_map_handled {A} (m : M (multimap output_info_type) A) st :
  match on_outputs_map m st with
  | Returned _ st' | Aborted _ st' => handled st' = handled st
  | Undefined => True
  end.
Proof. unfold on_outputs_map. by destruct (m (outputs_map_ st)). Qed.

(** X20. [do_index] never calls the completion handler it is given: however
    a run ends, returning or stopped at an assertion, in any build, the
    handler calls made are those made before. *)
Lemma do_index_calls_no_handler asserts tx handler st :
  match do_index asserts tx handler st with
  | Returned _ st' | Aborted _ st' => handled st' = handled st
  | Undefined => True
  end.
Proof.
  unfold do_index, bind.
  pose proof (on_spends_map_handled
    (index_inputs asserts (hash_transaction tx) 0 (inputs tx)) st) as Hs.
  destruct (on_spends_map _ st) as [[] st1|msg st1|]; [|done..].
  pose proof (on_outputs_map_handled
    (index_outputs asserts (hash_transaction tx) 0 (outputs tx)) st1) as Ho.
  destruct (on_outputs_map _ st1) as [[] st2|msg st2|]; [| |done]; congruence.
Qed.

(** X21. [do_deindex] never calls the completion handler it is given
    either. *)
Lemma do_deindex_calls_no_handler asserts tx handler st :
  match do_deindex asserts tx handler st with
  | Returned _ st' | Aborted _ st' => handled st' = handled st
  | Undefined => True
  end.
Proof.
  unfold do_deindex, bind.
  pose proof (on_spends_map_handled
    (deindex_inputs asserts (hash_transaction tx) 0 (inputs tx)) st) as Hs.
  destruct (on_spends_map _ st) as [[] st1|msg st1|]; [|done..].
  pose proof (on_outputs_map_handled
    (deindex_outputs asserts (hash_transaction tx) 0 (outputs tx)) st1) as Ho.
  destruct (on_outputs_map _ st1) as [[] st2|msg st2|]; [| |done]; congruence.
Qed.

(** ** Builds without assertions *)

(** In the model a run of [do_index] without assertions returns, having
    added every entry of [tx] whether or not it was there. *)
Lemma do_index_without_assertions tx handler st :
  do_index false tx handler st = Returned tt (indexed tx st).
Proof.
  rewrite do_index_entries. unfold bind, on_spends_map, on_outputs_map.
  destruct (index_entries_cases false (spends_of_tx tx) (spends_map_ st))
    as [->|[? _]]; [|done].
  simpl.
  destruct (index_entries_cases false (outputs_of_tx tx) (outputs_map_ st))
    as [->|[? _]]; [|done].
  done.
Qed.


(** * Further properties of the code *)

(** ** Lookup and removal in a multimap *)

Lemma filter_all {A} (P : A → Prop) `{!∀ x, Decision (P x)} (l : list A) :
  Forall P l → filter P l = l.
Proof.
  induction 1 as [|x l Hx _ IH]; [done|]. by rewrite filter_cons_True, IH.
Qed.

Lemma filter_delete_not {A} (P : A → Prop) `{!∀ x, Decision (P x)}
    (l : list A) i x :
  l !! i = Some x → ¬ P x → filter P (delete i l) = filter P l.
Proof.
  revert i. induction l as [|y l IH]; intros i Hi Hx; [done|].
  destruct i as [|i]; simpl in Hi.
  - injection Hi as ->. simpl. by rewrite filter_cons_False.
  - simpl. rewrite !filter_cons. by rewrite (IH i).
Qed.

Section more_entries.
Context {V : Type} `{!HasPoint V}.
Implicit Types (map : list (payment_address * V)) (e : payment_address * V).


Lemma find_entry_Some key value_point map i :
  find_entry key value_point map = Some i →
  ∃ v, map !! i = Some (key, v) ∧ point v = value_point.
Proof.
  unfold find_entry.
  intros ([i' [key' v]] & Hfind & ->)%fmap_Some.
  apply list_find_Some in Hfind as (Hi & [Hkey Hpoint] & _).
  simpl in *. subst key'. eauto.
Qed.

(** Removing the one entry that has a key leaves the entries with other
    keys. *)
Lemma delete_only_entry map i e :
  map !! i = Some e → absent (delete i map) e →
  delete i map = filter (λ e', entry_key e' ≠ entry_key e) map.
Proof.
  intros Hi Hgone.
  rewrite <-(filter_delete_not (λ e', entry_key e' ≠ entry_key e) map i e)
    by (done || by intros Hne; apply Hne).
  symmetry. apply filter_all. apply Forall_forall. intros e' Hin Heq.
  apply absent_iff in Hgone. apply Hgone. rewrite <-Heq.
  by apply list_elem_of_fmap_2.
Qed.

(** With assertions, a run of [deindex_entry]s that returns has removed
    exactly the entries that have the keys of [es]. *)
Lemma deindex_entries_returned es map map' :
  for_each (deindex_entry true) es map = Returned tt map' →
  map' = filter (λ e', entry_key e' ∉ entry_key <$> es) map.
Proof.
  revert map. induction es as [|e es IH]; intros map; simpl.
  { intros [= <-]. symmetry. apply filter_all, Forall_forall.
    intros e' _. apply not_elem_of_nil. }
  unfold bind.
  destruct (find_entry e.1 (point e.2) map) as [i|] eqn:Hfind.
  - rewrite (deindex_entry_found _ _ _ i) by done. simpl.
    destruct (index_does_not_exist e.1 (point e.2) (delete i map)) eqn:Hgone;
      simpl; [|done].
    intros ->%IH.
    apply find_entry_Some in Hfind as (v & Hi & Hpoint).
    rewrite (delete_only_entry map i (e.1, v)); [|done|].
    + rewrite list_filter_filter. apply list_filter_iff. intros e'.
      rewrite not_elem_of_cons. unfold entry_key. simpl. rewrite Hpoint.
      tauto.
    + unfold absent. simpl. by rewrite Hpoint.
  - rewrite deindex_entry_missing by done. done.
Qed.

(** A run of [deindex_entry]s that returns keeps the entries of every
    address that [es] does not name, in any build. *)
Lemma deindex_entries_other_address asserts es map map' payaddr :
  for_each (deindex_entry asserts) es map = Returned tt map' →
  Forall (λ e, e.1 ≠ payaddr) es →
  get_info_list payaddr map' = get_info_list payaddr map.
Proof.
  revert map. induction es as [|e es IH]; intros map; simpl.
  { by intros [= <-]. }
  unfold bind. intros Hrun [He Hes]%Forall_cons.
  destruct (find_entry e.1 (point e.2) map) as [i|] eqn:Hfind.
  - rewrite (deindex_entry_found _ _ _ i) in Hrun by done.
    destruct (asserts && negb _); [done|].
    rewrite (IH _ Hrun Hes).
    apply find_entry_Some in Hfind as (v & Hi & _).
    unfold get_info_list, equal_range.
    by rewrite (filter_delete_not _ map i (e.1, v)).
  - rewrite deindex_entry_missing in Hrun by done. by destruct asserts.
Qed.

(** A run of [deindex_entry]s that returns only removes entries. *)
Lemma deindex_entries_sublist asserts es map map' :
  for_each (deindex_entry asserts) es map = Returned tt map' →
  map' `sublist_of` map.
Proof.
  revert map. induction es as [|e es IH]; intros map; simpl.
  { by intros [= <-]. }
  unfold bind.
  destruct (find_entry e.1 (point e.2) map) as [i|] eqn:Hfind.
  - rewrite (deindex_entry_found _ _ _ i) by done.
    destruct (asserts && negb _); [done|].
    intros Hrun%IH. etrans; [exact Hrun|]. apply sublist_delete.
  - rewrite deindex_entry_missing by done. by destruct asserts.
Qed.

(** With assertions, a run of [index_entry]s that returns keeps the keys of
    the map distinct. *)
Lemma index_entries_NoDup es map map' :
  for_each (index_entry true) es map = Returned tt map' →
  NoDup (entry_key <$> map) → NoDup (entry_key <$> map').
Proof.
  revert map. induction es as [|e es IH]; intros map; simpl.
  { by intros [= <-]. }
  unfold bind. rewrite index_entry_run. simpl.
  destruct (index_does_not_exist e.1 (point e.2) map) eqn:He; simpl; [|done].
  intros Hrun Hnodup. apply (IH _ Hrun).
  rewrite fmap_app. apply NoDup_app. split_and!; [done| |apply NoDup_singleton].
  intros k Hk ->%list_elem_of_singleton. by apply (absent_iff map e).
Qed.

(** With assertions, a run of [index_entry]s that returns met no entry that
    was there already. *)
Lemma index_entries_returned_absent es map map' :
  for_each (index_entry true) es map = Returned tt map' →
  Forall (absent map) es.
Proof.
  revert map. induction es as [|e es IH]; intros map; simpl; [done|].
  unfold bind. rewrite index_entry_run. simpl.
  destruct (index_does_not_exist e.1 (point e.2) map) eqn:He; simpl; [|done].
  intros Hrun%IH. constructor; [done|].
  eapply Forall_impl; [exact Hrun|]. simpl.
  intros e' He'. by apply absent_app in He' as [? _].
Qed.

End more_entries.

(** ** The entries of a transaction *)

Lemma spend_entries_elem tx_hash i tx_inputs payaddr spend_info :
  0 ≤ i → i + Z.of_nat (length tx_inputs) ≤ 2 ^ 32 →
  (payaddr, spend_info) ∈ spend_entries tx_hash i tx_inputs ↔
  ∃ k input,
    tx_inputs !! k = Some input ∧
    extract (input_script input) = Some payaddr ∧
    spend_info =
      {| spend_point := {| hash := tx_hash; index := i + Z.of_nat k |};
         previous_output := input_previous_output input |}.
Proof.
  revert i. induction tx_inputs as [|input rest IH]; intros i Hi Hlen.
  { simpl. split; [by intros ?%elem_of_nil|by intros (k & ? & ? & _)]. }
  assert ((payaddr, spend_info) ∈ spend_entries tx_hash (uint32_succ i) rest ↔
          ∃ k input',
            rest !! k = Some input' ∧
            extract (input_script input') = Some payaddr ∧
            spend_info =
              {| spend_point :=
                   {| hash := tx_hash; index := i + Z.of_nat (S k) |};
                 previous_output := input_previous_output input' |})
    as Hrest.
  { destruct rest as [|input' rest'].
    - simpl. split; [by intros ?%elem_of_nil|by intros (k & ? & ? & _)].
    - simpl length in *. rewrite uint32_succ_small by lia.
      rewrite IH by (simpl length; lia).
      split; intros (k & input0 & Hk & Haddr & ->); exists k, input0;
        (split_and!; [done..|]); do 2 f_equal; lia. }
  simpl spend_entries.
  destruct (extract (input_script input)) as [payaddr'|] eqn:Haddr.
  - rewrite elem_of_cons, Hrest. split.
    + intros [[= -> ->]|(k & input' & Hk & Haddr' & ->)].
      * exists 0%nat, input. split_and!; [done..|]. do 2 f_equal. simpl. lia.
      * by exists (S k), input'.
    + intros ([|k] & input' & Hk & Haddr' & ->); simpl in Hk.
      * injection Hk as <-. left. rewrite Haddr in Haddr'.
        injection Haddr' as <-. do 3 f_equal. simpl. lia.
      * right. by exists k, input'.
  - rewrite Hrest. split.
    + intros (k & input' & Hk & Haddr' & ->). by exists (S k), input'.
    + intros ([|k] & input' & Hk & Haddr' & ->); simpl in Hk.
      * injection Hk as <-. congruence.
      * by exists k, input'.
Qed.

Lemma output_entries_elem tx_hash i tx_outputs payaddr output_info :
  0 ≤ i → i + Z.of_nat (length tx_outputs) ≤ 2 ^ 32 →
  (payaddr, output_info) ∈ output_entries tx_hash i tx_outputs ↔
  ∃ k output,
    tx_outputs !! k = Some output ∧
    extract (output_script output) = Some payaddr ∧
    output_info =
      {| output_info_point := {| hash := tx_hash; index := i + Z.of_nat k |};
         value := output_value output |}.
Proof.
  revert i. induction tx_outputs as [|output rest IH]; intros i Hi Hlen.
  { simpl. split; [by intros ?%elem_of_nil|by intros (k & ? & ? & _)]. }
  assert ((payaddr, output_info)
            ∈ output_entries tx_hash (uint32_succ i) rest ↔
          ∃ k output',
            rest !! k = Some output' ∧
            extract (output_script output') = Some payaddr ∧
            output_info =
              {| output_info_point :=
                   {| hash := tx_hash; index := i + Z.of_nat (S k) |};
                 value := output_value output' |})
    as Hrest.
  { destruct rest as [|output' rest'].
    - simpl. split; [by intros ?%elem_of_nil|by intros (k & ? & ? & _)].
    - simpl length in *. rewrite uint32_succ_small by lia.
      rewrite IH by (simpl length; lia).
      split; intros (k & output0 & Hk & Haddr & ->); exists k, output0;
        (split_and!; [done..|]); do 2 f_equal; lia. }
  simpl output_entries.
  destruct (extract (output_script output)) as [payaddr'|] eqn:Haddr.
  - rewrite elem_of_cons, Hrest. split.
    + intros [[= -> ->]|(k & output' & Hk & Haddr' & ->)].
      * exists 0%nat, output. split_and!; [done..|]. do 2 f_equal. simpl. lia.
      * by exists (S k), output'.
    + intros ([|k] & output' & Hk & Haddr' & ->); simpl in Hk.
      * injection Hk as <-. left. rewrite Haddr in Haddr'.
        injection Haddr' as <-. do 3 f_equal. simpl. lia.
      * right. by exists k, output'.
  - rewrite Hrest. split.
    + intros (k & output' & Hk & Haddr' & ->). by exists (S k), output'.
    + intros ([|k] & output' & Hk & Haddr' & ->); simpl in Hk.
      * injection Hk as <-. congruence.
      * by exists k, output'.
Qed.

(** Every entry of a transaction is filed under the address of one of its
    inputs, or outputs. *)
Lemma spend_entries_address tx_hash i tx_inputs :
  Forall (λ e, ∃ input, input ∈ tx_inputs ∧
                        extract (input_script input) = Some e.1)
    (spend_entries tx_hash i tx_inputs).
Proof.
  revert i. induction tx_inputs as [|input rest IH]; intros i; simpl.
  { constructor. }
  assert (Forall (λ e, ∃ input', input' ∈ input :: rest ∧
                               extract (input_script input') = Some e.1)
            (spend_entries tx_hash (uint32_succ i) rest)) as Hrest.
  { eapply Forall_impl; [apply IH|]. simpl. intros e (input' & Hin & Haddr).
    exists input'. split; [by apply elem_of_cons; right|done]. }
  destruct (extract (input_script input)) as [payaddr|] eqn:Haddr; [|done].
  constructor; [|done]. exists input. split; [by apply elem_of_cons; left|done].
Qed.

Lemma output_entries_address tx_hash i tx_outputs :
  Forall (λ e, ∃ output, output ∈ tx_outputs ∧
                         extract (output_script output) = Some e.1)
    (output_entries tx_hash i tx_outputs).
Proof.
  revert i. induction tx_outputs as [|output rest IH]; intros i; simpl.
  { constructor. }
  assert (Forall (λ e, ∃ output', output' ∈ output :: rest ∧
                                extract (output_script output') = Some e.1)
            (output_entries tx_hash (uint32_succ i) rest)) as Hrest.
  { eapply Forall_impl; [apply IH|]. simpl. intros e (output' & Hin & Haddr).
    exists output'. split; [by apply elem_of_cons; right|done]. }
  destruct (extract (output_script output)) as [payaddr|] eqn:Haddr; [|done].
  constructor; [|done].
  exists output. split; [by apply elem_of_cons; left|done].
Qed.

(** What a run of [do_index] or [do_deindex] that returns was made of. *)
Lemma do_index_returned_runs asserts tx handler st st1 :
  do_index asserts tx handler st = Returned tt st1 →
  for_each (index_entry asserts) (spends_of_tx tx) (spends_map_ st) =
    Returned tt (spends_map_ st1) ∧
  for_each (index_entry asserts) (outputs_of_tx tx) (outputs_map_ st) =
    Returned tt (outputs_map_ st1) ∧
  handled st1 = handled st.
Proof.
  rewrite do_index_entries. unfold bind, on_spends_map, on_outputs_map.
  destruct (for_each _ (spends_of_tx tx) _) as [[] sp| |]; [|done..]. simpl.
  destruct (for_each _ (outputs_of_tx tx) _) as [[] out| |]; [|done..].
  by intros [= <-].
Qed.

Lemma do_deindex_returned_runs asserts tx handler st st1 :
  do_deindex asserts tx handler st = Returned tt st1 →
  for_each (deindex_entry asserts) (spends_of_tx tx) (spends_map_ st) =
    Returned tt (spends_map_ st1) ∧
  for_each (deindex_entry asserts) (outputs_of_tx tx) (outputs_map_ st) =
    Returned tt (outputs_map_ st1) ∧
  handled st1 = handled st.
Proof.
  rewrite do_deindex_entries. unfold bind, on_spends_map, on_outputs_map.
  destruct (for_each _ (spends_of_tx tx) _) as [[] sp| |]; [|done..]. simpl.
  destruct (for_each _ (outputs_of_tx tx) _) as [[] out| |]; [|done..].
  by intros [= <-].
Qed.


Lemma get_info_list_other_address {V} (payaddr : payment_address)
    (map : list (payment_address * V)) :
  Forall (λ e, e.1 ≠ payaddr) map → get_info_list payaddr map = [].
Proof.
  unfold get_info_list, equal_range.
  induction 1 as [|e map He _ IH]; [done|]. by rewrite filter_cons_False.
Qed.

Lemma spends_of_tx_other_address tx payaddr :
  (∀ input, input ∈ inputs tx → extract (input_script input) ≠ Some payaddr) →
  Forall (λ e, e.1 ≠ payaddr) (spends_of_tx tx).
Proof.
  intros Hother. eapply Forall_impl; [apply spend_entries_address|]. simpl.
  intros e (input & Hin & Haddr) <-. by apply (Hother input).
Qed.

Lemma outputs_of_tx_other_address tx payaddr :
  (∀ output, output ∈ outputs tx →
             extract (output_script output) ≠ Some payaddr) →
  Forall (λ e, e.1 ≠ payaddr) (outputs_of_tx tx).
Proof.
  intros Hother. eapply Forall_impl; [apply output_entries_address|]. simpl.
  intros e (output & Hin & Haddr) <-. by apply (Hother output).
Qed.

Lemma no_address_no_entries tx :
  (∀ input, input ∈ inputs tx → extract (input_script input) = None) →
  (∀ output, output ∈ outputs tx → extract (output_script output) = None) →
  spends_of_tx tx = [] ∧ outputs_of_tx tx = [].
Proof.
  intros Hin Hout. split.
  - pose proof (spend_entries_address (hash_transaction tx) 0 (inputs tx))
      as Hall.
    fold (spends_of_tx tx) in Hall.
    destruct (spends_of_tx tx) as [|e es]; [done|].
    apply Forall_cons in Hall as [(input & Hinput & Haddr) _].
    rewrite (Hin input Hinput) in Haddr. done.
  - pose proof (output_entries_address (hash_transaction tx) 0 (outputs tx))
      as Hall.
    fold (outputs_of_tx tx) in Hall.
    destruct (outputs_of_tx tx) as [|e es]; [done|].
    apply Forall_cons in Hall as [(output & Houtput & Haddr) _].
    rewrite (Hout output Houtput) in Haddr. done.
Qed.

(** ** More on [do_index] *)

(** X2. With assertions, [index(tx)] returns exactly when none of the entries
    it would add is in the index: no input or output of [tx] that has an
    address has its point filed under that address already. *)
Theorem do_index_returns_iff_not_indexed tx handler st :
  countable_by_uint32 tx →
  (∃ st1, do_index true tx handler st = Returned tt st1) ↔ not_indexed tx st.
Proof.
  intros Hcount. split.
  - intros [st1 (Hspends & Houtputs & _)%do_index_returned_runs].
    split; by eapply index_entries_returned_absent.
  - intros Hfresh. eexists. by apply do_index_fresh.
Qed.

Lemma spend_entries_imap tx_hash i tx_inputs :
  0 ≤ i → i + Z.of_nat (length tx_inputs) ≤ 2 ^ 32 →
  spend_entries tx_hash i tx_inputs =
  omap id
    (imap
       (λ k input,
          (λ payaddr,
             (payaddr,
              {| spend_point :=
                   {| hash := tx_hash; index := i + Z.of_nat k |};
                 previous_output := input_previous_output input |}))
            <$> extract (input_script input))
       tx_inputs).
Proof.
  revert i. induction tx_inputs as [|input rest IH]; intros i Hi Hlen; [done|].
  rewrite imap_cons. simpl spend_entries.
  assert (spend_entries tx_hash (uint32_succ i) rest =
          omap id
            (imap
               ((λ k input',
                   (λ payaddr,
                      (payaddr,
                       {| spend_point :=
                            {| hash := tx_hash; index := i + Z.of_nat k |};
                          previous_output := input_previous_output input' |}))
                     <$> extract (input_script input')) ∘ S)
               rest)) as Hrest.
  { destruct rest as [|input' rest']; [done|].
    simpl length in *. rewrite uint32_succ_small by lia.
    rewrite IH by (simpl length; lia). f_equal. apply imap_ext.
    intros k input0 _. simpl.
    destruct (extract (input_script input0)); [|done].
    simpl. do 4 f_equal. lia. }
  rewrite Hrest. simpl.
  destruct (extract (input_script input)); simpl; [|done].
  do 4 f_equal. lia.
Qed.

Lemma output_entries_imap tx_hash i tx_outputs :
  0 ≤ i → i + Z.of_nat (length tx_outputs) ≤ 2 ^ 32 →
  output_entries tx_hash i tx_outputs =
  omap id
    (imap
       (λ k output,
          (λ payaddr,
             (payaddr,
              {| output_info_point :=
                   {| hash := tx_hash; index := i + Z.of_nat k |};
                 value := output_value output |}))
            <$> extract (output_script output))
       tx_outputs).
Proof.
  revert i. induction tx_outputs as [|output rest IH]; intros i Hi Hlen;
    [done|].
  rewrite imap_cons. simpl output_entries.
  assert (output_entries tx_hash (uint32_succ i) rest =
          omap id
            (imap
               ((λ k output',
                   (λ payaddr,
                      (payaddr,
                       {| output_info_point :=
                            {| hash := tx_hash; index := i + Z.of_nat k |};
                          value := output_value output' |}))
                     <$> extract (output_script output')) ∘ S)
               rest)) as Hrest.
  { destruct rest as [|output' rest']; [done|].
    simpl length in *. rewrite uint32_succ_small by lia.
    rewrite IH by (simpl length; lia). f_equal. apply imap_ext.
    intros k output0 _. simpl.
    destruct (extract (output_script output0)); [|done].
    simpl. do 4 f_equal. lia. }
  rewrite Hrest. simpl.
  destruct (extract (output_script output)); simpl; [|done].
  do 4 f_equal. lia.
Qed.

(** X3. After an [index(tx)] that returned, the spends map holds, up to
    order, the entries it held before and one more entry for each input of
    [tx] whose script has an address: a spend under that address, with the
    hash of [tx] and the place of the input as its point and the input's
    previous output. The outputs map likewise holds one more entry for each
    output of [tx] that has an address, with its place and value. Inputs and
    outputs without an address add nothing, and nothing is removed. *)
Theorem do_index_files_inputs_and_outputs asserts tx handler st st1 :
  countable_by_uint32 tx →
  do_index asserts tx handler st = Returned tt st1 →
  spends_map_ st1 ≡ₚ
    spends_map_ st ++
    omap id
      (imap
         (λ i input,
            (λ payaddr,
               (payaddr,
                {| spend_point :=
                     {| hash := hash_transaction tx; index := Z.of_nat i |};
                   previous_output := input_previous_output input |}))
              <$> extract (input_script input))
         (inputs tx)) ∧
  outputs_map_ st1 ≡ₚ
    outputs_map_ st ++
    omap id
      (imap
         (λ i output,
            (λ payaddr,
               (payaddr,
                {| output_info_point :=
                     {| hash := hash_transaction tx; index := Z.of_nat i |};
                   value := output_value output |}))
              <$> extract (output_script output))
         (outputs tx)).
Proof.
  intros [Hin Hout] ->%do_index_returned. unfold indexed. simpl.
  unfold spends_of_tx, outputs_of_tx.
  rewrite spend_entries_imap, output_entries_imap by lia. done.
Qed.

(** X4. With assertions, [index] keeps the entries of each map distinct: if
    no address has a point filed twice before an [index(tx)] that returns,
    none has after it. *)
Theorem do_index_keeps_entries_distinct tx handler st st1 :
  NoDup (entry_key <$> spends_map_ st) →
  NoDup (entry_key <$> outputs_map_ st) →
  do_index true tx handler st = Returned tt st1 →
  NoDup (entry_key <$> spends_map_ st1) ∧
  NoDup (entry_key <$> outputs_map_ st1).
Proof.
  intros Hspends Houtputs (Hs & Ho & _)%do_index_returned_runs.
  split; by eapply index_entries_NoDup.
Qed.

(** X5. An [index(tx)] that returns changes nothing for an address that no
    input and no output of [tx] resolves to: a query for it gives the same
    spends and outputs as before. *)
Theorem do_index_other_addresses asserts tx handler st st1 payaddr :
  (∀ input, input ∈ inputs tx → extract (input_script input) ≠ Some payaddr) →
  (∀ output, output ∈ outputs tx →
             extract (output_script output) ≠ Some payaddr) →
  do_index asserts tx handler st = Returned tt st1 →
  get_info_list payaddr (spends_map_ st1) =
    get_info_list payaddr (spends_map_ st) ∧
  get_info_list payaddr (outputs_map_ st1) =
    get_info_list payaddr (outputs_map_ st).
Proof.
  intros Hin Hout ->%do_index_returned. unfold indexed. simpl.
  rewrite !get_info_list_app.
  rewrite (get_info_list_other_address payaddr (spends_of_tx tx))
    by by apply spends_of_tx_other_address.
  rewrite (get_info_list_other_address payaddr (outputs_of_tx tx))
    by by apply outputs_of_tx_other_address.
  by rewrite !app_nil_r.
Qed.

(** X6. A transaction none of whose scripts resolves to an address (and
    whose inputs and outputs the 32-bit loop counters can number) is skipped:
    [index] and [deindex] of it return and leave the index as it was, in any
    build. *)
Theorem transaction_without_address_is_skipped asserts tx handler st :
  countable_by_uint32 tx →
  (∀ input, input ∈ inputs tx → extract (input_script input) = None) →
  (∀ output, output ∈ outputs tx → extract (output_script output) = None) →
  do_index asserts tx handler st = Returned tt st ∧
  do_deindex asserts tx handler st = Returned tt st.
Proof.
  intros _ Hin Hout.
  destruct (no_address_no_entries tx Hin Hout) as [Hspends Houtputs].
  rewrite do_index_entries, do_deindex_entries.
  unfold bind, on_spends_map, on_outputs_map.
  rewrite Hspends, Houtputs. simpl. by rewrite indexer_state_eta.
Qed.

(** X22. In a build without assertions, [index(tx)] of a transaction whose
    inputs and outputs the 32-bit loop counters can number always returns,
    and each map then holds, up to order, the entries it held before and
    every entry of [tx] once more, whether or not it was there: an entry
    that was there is then filed twice. *)
Theorem do_index_without_assertions_files_again tx handler st :
  countable_by_uint32 tx →
  ∃ st1,
    do_index false tx handler st = Returned tt st1 ∧
    spends_map_ st1 ≡ₚ spends_map_ st ++ spends_of_tx tx ∧
    outputs_map_ st1 ≡ₚ outputs_map_ st ++ outputs_of_tx tx ∧
    ∀ e, e ∈ spends_of_tx tx → e ∈ spends_map_ st →
         ¬ NoDup (spends_map_ st1).
Proof.
  intros _. exists (indexed tx st). split_and!; [|done..|].
  - rewrite do_index_entries. unfold bind, on_spends_map, on_outputs_map.
    destruct (index_entries_cases false (spends_of_tx tx) (spends_map_ st))
      as [->|[? _]]; [|done].
    simpl.
    destruct (index_entries_cases false (outputs_of_tx tx) (outputs_map_ st))
      as [->|[? _]]; [|done].
    done.
  - intros e Hnew Hold. simpl. intros (_ & Hdisjoint & _)%NoDup_app.
    by apply (Hdisjoint e).
Qed.

(** ** More on [do_deindex] *)

(** X7. With assertions, a [deindex(tx)] that returns has removed from each
    map exactly the entries that have the address and point of an entry of
    [tx], and kept the others in their order. *)
Theorem do_deindex_removes_entries tx handler st st1 :
  do_deindex true tx handler st = Returned tt st1 →
  spends_map_ st1 =
    filter (λ e, entry_key e ∉ entry_key <$> spends_of_tx tx)
      (spends_map_ st) ∧
  outputs_map_ st1 =
    filter (λ e, entry_key e ∉ entry_key <$> outputs_of_tx tx)
      (outputs_map_ st).
Proof.
  intros (Hs & Ho & _)%do_deindex_returned_runs.
  split; by apply deindex_entries_returned.
Qed.

(** X8. [deindex] keeps the entries of each map distinct, in any build: a
    [deindex(tx)] that returns only removes entries. *)
Theorem do_deindex_keeps_entries_distinct asserts tx handler st st1 :
  NoDup (entry_key <$> spends_map_ st) →
  NoDup (entry_key <$> outputs_map_ st) →
  do_deindex asserts tx handler st = Returned tt st1 →
  spends_map_ st1 `sublist_of` spends_map_ st ∧
  outputs_map_ st1 `sublist_of` outputs_map_ st ∧
  NoDup (entry_key <$> spends_map_ st1) ∧
  NoDup (entry_key <$> outputs_map_ st1).
Proof.
  intros Hspends Houtputs (Hs & Ho & _)%do_deindex_returned_runs.
  apply deindex_entries_sublist in Hs, Ho. split_and!; [done..| |].
  - eapply sublist_NoDup; [exact Hspends|]. by apply fmap_sublist.
  - eapply sublist_NoDup; [exact Houtputs|]. by apply fmap_sublist.
Qed.

(** X9. A [deindex(tx)] that returns changes nothing for an address that no
    input and no output of [tx] resolves to, in any build. *)
Theorem do_deindex_other_addresses asserts tx handler st st1 payaddr :
  (∀ input, input ∈ inputs tx → extract (input_script input) ≠ Some payaddr) →
  (∀ output, output ∈ outputs tx →
             extract (output_script output) ≠ Some payaddr) →
  do_deindex asserts tx handler st = Returned tt st1 →
  get_info_list payaddr (spends_map_ st1) =
    get_info_list payaddr (spends_map_ st) ∧
  get_info_list payaddr (outputs_map_ st1) =
    get_info_list payaddr (outputs_map_ st).
Proof.
  intros Hin Hout (Hs & Ho & _)%do_deindex_returned_runs. split.
  - eapply deindex_entries_other_address; [exact Hs|].
    by apply spends_of_tx_other_address.
  - eapply deindex_entries_other_address; [exact Ho|].
    by apply outputs_of_tx_other_address.
Qed.

(** ** [deindex], then [index] *)

Section deindex_then_index.
Context {V : Type} `{!HasPoint V}.
Implicit Types (map : list (payment_address * V)) (e : payment_address * V).

Lemma absent_sublist map map' e :
  map' `sublist_of` map → absent map e → absent map' e.
Proof.
  rewrite !absent_iff. intros Hsub Hno Hin. apply Hno.
  apply list_elem_of_fmap in Hin as (e' & -> & Hin).
  apply list_elem_of_fmap_2. by eapply elem_of_sublist.
Qed.

(** Removing the entries of [es], all of which are in the map, and then
    adding them again gives the map back, up to the order of its entries. *)
Lemma deindex_index_entries es map map' :
  NoDup (entry_key <$> es) → Forall (λ e, e ∈ map) es →
  for_each (deindex_entry true) es map = Returned tt map' →
  for_each (index_entry true) es map' = Returned tt (map' ++ es) ∧
  map' ++ es ≡ₚ map.
Proof.
  revert map. induction es as [|e es IH]; intros map Hnodup Hin; simpl.
  { intros [= <-]. by rewrite app_nil_r. }
  rewrite fmap_cons in Hnodup. apply NoDup_cons in Hnodup as [Hnotin Hnodup].
  apply Forall_cons in Hin as [He Hes].
  unfold bind.
  destruct (find_entry e.1 (point e.2) map) as [i|] eqn:Hfind;
    [|by rewrite deindex_entry_missing by done].
  rewrite (deindex_entry_found _ _ _ i) by done. simpl.
  destruct (index_does_not_exist e.1 (point e.2) (delete i map)) eqn:Hgone;
    simpl; [|done].
  intros Hrun.
  apply find_entry_Some in Hfind as (v & Hi & Hpoint).
  assert (map !! i = Some e) as Hie.
  { apply (delete_Permutation map i) in Hi as Hperm.
    rewrite Hperm in He. apply elem_of_cons in He as [->|He]; [done|].
    exfalso. apply (absent_iff (delete i map) e) in Hgone. apply Hgone.
    by apply list_elem_of_fmap_2. }
  assert (Forall (λ e', e' ∈ delete i map) es) as Hes'.
  { apply Forall_forall. intros e' He'.
    eapply Forall_forall in Hes; [|exact He'].
    rewrite (delete_Permutation map i e Hie) in Hes.
    apply elem_of_cons in Hes as [->|Hes]; [|done].
    destruct Hnotin. by apply list_elem_of_fmap_2. }
  destruct (IH (delete i map) Hnodup Hes' Hrun) as [Hindex Hperm].
  split.
  - apply (index_entries_fresh true (e :: es) map'); [by apply NoDup_cons|].
    constructor.
    + eapply absent_sublist; [by eapply deindex_entries_sublist|done].
    + by eapply index_entries_returned_absent.
  - rewrite <-Permutation_middle, Hperm.
    symmetry. by apply delete_Permutation.
Qed.

End deindex_then_index.

(** X10. [deindex(tx)], then [index(tx)]: when the entries of [tx] are in
    the index and, with assertions, [deindex(tx)] returns, the [index(tx)]
    that follows returns too, and each map then holds the entries it held
    before, possibly in another order; so does every query result. *)
Theorem deindex_then_index_restores tx handler handler' st st1 :
  countable_by_uint32 tx →
  Forall (λ e, e ∈ spends_map_ st) (spends_of_tx tx) →
  Forall (λ e, e ∈ outputs_map_ st) (outputs_of_tx tx) →
  do_deindex true tx handler st = Returned tt st1 →
  ∃ st2,
    do_index true tx handler' st1 = Returned tt st2 ∧
    spends_map_ st2 ≡ₚ spends_map_ st ∧
    outputs_map_ st2 ≡ₚ outputs_map_ st ∧
    ∀ payaddr,
      get_info_list payaddr (spends_map_ st2) ≡ₚ
        get_info_list payaddr (spends_map_ st) ∧
      get_info_list payaddr (outputs_map_ st2) ≡ₚ
        get_info_list payaddr (outputs_map_ st).
Proof.
  intros [Hs Ho]%tx_entries_NoDup Hspends Houtputs
    (Hds & Hdo & _)%do_deindex_returned_runs.
  destruct (deindex_index_entries _ _ _ Hs Hspends Hds) as [His Hps].
  destruct (deindex_index_entries _ _ _ Ho Houtputs Hdo) as [Hio Hpo].
  exists (indexed tx st1). split_and!.
  - rewrite do_index_entries. unfold bind, on_spends_map, on_outputs_map.
    rewrite His. simpl. by rewrite Hio.
  - done.
  - done.
  - intros payaddr. unfold get_info_list, equal_range. simpl.
    by rewrite Hps, Hpo.
Qed.

(** ** More on the merger *)

Lemma mark_spends_cases asserts spends (history : history_list) :
  (∃ history', for_each (mark_spend asserts) spends history =
               Returned tt history') ∨
  (asserts = true ∧
   ∃ msg history', for_each (mark_spend asserts) spends history =
                   Aborted msg history').
Proof.
  revert history. induction spends as [|s spends IH]; intros history; simpl.
  { left. by eexists. }
  unfold bind. rewrite mark_spend_run.
  destruct (list_find _ history) as [[i row]|].
  - destruct (asserts && negb (bool_decide (spend_height row = max_height)))
      eqn:Hheight.
    { right. apply andb_true_iff in Hheight as [-> _]. eauto. }
    destruct (asserts && negb (bool_decide (spend row = unspent))) eqn:Hspend.
    { right. apply andb_true_iff in Hspend as [-> _]. eauto. }
    apply IH.
  - destruct asserts; [right; eauto|apply IH].
Qed.

Lemma merge_cases asserts outputs spends confirmed :
  (∃ result, merge asserts outputs spends confirmed = Returned tt result) ∨
  (asserts = true ∧
   ∃ msg history', merge asserts outputs spends confirmed =
                   Aborted msg history').
Proof.
  unfold merge, bind.
  destruct (add_outputs_cases asserts outputs confirmed)
    as [->|[-> [added ->]]]; [|right; eauto].
  apply mark_spends_cases.
Qed.

(** With assertions, a run of the loop over [outputs] that returns met
    outputs that differ from one another and from the outputs of the
    rows. *)
Lemma add_outputs_returned_distinct outputs (history history' : history_list) :
  for_each (add_output true) outputs history = Returned tt history' →
  NoDup (output_info_point <$> outputs) ∧
  ∀ output_info row, output_info ∈ outputs → row ∈ history →
                     output row ≠ output_info_point output_info.
Proof.
  revert history. induction outputs as [|o outputs IH]; intros history; simpl.
  { intros _. split; [constructor|]. by intros ? ? ?%elem_of_nil. }
  unfold bind. rewrite add_output_run. simpl.
  destruct (decide (Forall (λ row, output row ≠ output_info_point o) history))
    as [Hfresh|Hclash];
    [rewrite (bool_decide_eq_true_2 _ Hfresh)
    |by rewrite (bool_decide_eq_false_2 _ Hclash)].
  simpl. intros [Hnodup Hrest]%IH. split.
  - apply NoDup_cons. split; [|done].
    intros (o' & Heq & Hin)%list_elem_of_fmap.
    apply (Hrest o' (unconfirmed_row o)); [done| |done].
    apply elem_of_app. right. by apply list_elem_of_singleton.
  - intros o' row [->|Hin]%elem_of_cons Hrow.
    + by eapply Forall_forall in Hfresh.
    + apply Hrest; [done|]. apply elem_of_app. by left.
Qed.

(** With assertions, the round of a spend whose row is spent stops before
    the row is assigned. *)
Lemma mark_spend_spent_row spend_info (history : history_list) i row :
  history !! i = Some row →
  output row = previous_output spend_info →
  (∀ j row', (j < i)%nat → history !! j = Some row' →
             output row' ≠ previous_output spend_info) →
  spend_height row ≠ max_height →
  mark_spend true spend_info history =
    Aborted "row.spend_height == max_height" history.
Proof.
  intros Hi Hrow Hfirst Hspent. rewrite mark_spend_run.
  assert (list_find (λ row, output row = previous_output spend_info) history
          = Some (i, row)) as ->.
  { apply list_find_Some. split_and!; [done..|].
    intros j row' Hj Hlt. by apply (Hfirst j row'). }
  by rewrite bool_decide_eq_false_2.
Qed.

(** With assertions, a second spend of an output stops the loop over
    [spends]. *)
Lemma mark_spends_double_spend first between second later
    (history : history_list) :
  previous_output first = previous_output second →
  ∃ msg history',
    for_each (mark_spend true) (first :: between ++ second :: later) history =
    Aborted msg history'.
Proof.
  intros Hsame. simpl. unfold bind.
  destruct (mark_spend true first history) as [[] history1|msg history1|]
    eqn:Hfirst; [|by eauto|].
  - apply mark_spend_returned in Hfirst
      as [(? & _)|(i & row & Hi & Hrow & Hfirst & _ & ->)]; [done|].
    rewrite for_each_app. unfold bind.
    destruct (mark_spends_cases true between
                (<[i := marked first row]> history))
      as [[history2 Hbetween]|[_ (msg & history2 & Hbetween)]];
      rewrite Hbetween; [|by eauto].
    simpl. unfold bind.
    rewrite (mark_spend_spent_row second history2 i (marked first row));
      [by eauto| |by rewrite <-Hsame| |done].
    + eapply mark_spends_write_once; [exact Hbetween| |done].
      apply list_lookup_insert_eq. by eapply lookup_lt_Some.
    + intros j row' Hlt Hj. apply mark_spends_marked_by in Hbetween.
      destruct (Forall2_lookup_r _ _ _ _ _ Hbetween Hj) as (row1 & Hj1 & Hrow1).
      rewrite list_lookup_insert_ne in Hj1 by lia.
      apply marked_by_output in Hrow1 as [-> _]. rewrite <-Hsame.
      by apply (Hfirst j row1).
  - destruct (mark_spend_cases first history) as [[? Hret]|[? Hab]];
      congruence.
Qed.

(** X11. [fetch_history] reports once or not at all, and leaves the index
    alone: a run either returns after one call of the handler, with both
    maps as they were, or, with assertions only, stops at a failed assertion
    before any call. *)
Theorem fetch_history_reports_once asserts chain address from_height st :
  match fetch_history asserts chain address record_fetch from_height st with
  | Returned _ st' =>
      spends_map_ st' = spends_map_ st ∧
      outputs_map_ st' = outputs_map_ st ∧
      ∃ ec rows, handled st' = handled st ++ [fetch_handler_call ec rows]
  | Aborted _ st' => asserts = true ∧ st' = st
  | Undefined => False
  end.
Proof.
  unfold fetch_history. destruct (chain address from_height) as [ec history].
  unfold blockchain_history_fetched.
  destruct (is_error ec) eqn:Hec; [simpl; eauto 6|].
  rewrite do_query_run. unfold indexer_history_fetched. simpl.
  destruct (merge_cases asserts
              (get_info_list address (outputs_map_ st))
              (get_info_list address (spends_map_ st)) history)
    as [[rows ->]|[-> (msg & history' & ->)]]; simpl; eauto 6.
Qed.

(** X12. [fetch_history] hands its handler the merge of the rows the chain
    gave with what the index holds for the address: the outputs filed under
    it as unconfirmed outputs, the spends filed under it as unconfirmed
    spends. *)
Theorem fetch_history_delivers_merge asserts chain address handle_fetch
    from_height st history rows :
  chain address from_height = (no_error, history) →
  merge asserts (get_info_list address (outputs_map_ st))
    (get_info_list address (spends_map_ st)) history = Returned tt rows →
  fetch_history asserts chain address handle_fetch from_height st =
    handle_fetch no_error rows st.
Proof.
  intros Hchain Hmerge. unfold fetch_history. rewrite Hchain.
  unfold blockchain_history_fetched. simpl. rewrite do_query_run.
  by apply indexer_history_fetched_returned.
Qed.

(** X13. When the chain reports an error, [fetch_history] passes the error
    on with an empty history: the rows that came with the error are dropped,
    the index is not read and no assertion is evaluated. The same holds for
    [indexer_history_fetched] called with an error. *)
Theorem fetch_history_upstream_error asserts chain address handle_fetch
    from_height st ec history outputs spends :
  chain address from_height = (ec, history) →
  ec ≠ 0 →
  fetch_history asserts chain address handle_fetch from_height st =
    handle_fetch ec [] st ∧
  indexer_history_fetched asserts ec outputs spends history handle_fetch st =
    handle_fetch ec [] st.
Proof.
  intros Hchain Hec. unfold fetch_history. rewrite Hchain.
  unfold blockchain_history_fetched, indexer_history_fetched, is_error.
  apply Z.eqb_neq in Hec. by rewrite Hec.
Qed.

(** X14. For an address under which nothing is indexed, [fetch_history]
    hands on the rows of the chain as they are, in any build. *)
Theorem fetch_history_nothing_indexed asserts chain address handle_fetch
    from_height st history :
  chain address from_height = (no_error, history) →
  (∀ spend_info, (address, spend_info) ∉ spends_map_ st) →
  (∀ output_info, (address, output_info) ∉ outputs_map_ st) →
  fetch_history asserts chain address handle_fetch from_height st =
    handle_fetch no_error history st.
Proof.
  intros Hchain Hspends Houtputs.
  assert (get_info_list address (spends_map_ st) = []) as Hs.
  { apply get_info_list_other_address, Forall_forall.
    intros [a v] Hin <-. by apply (Hspends v). }
  assert (get_info_list address (outputs_map_ st) = []) as Ho.
  { apply get_info_list_other_address, Forall_forall.
    intros [a v] Hin <-. by apply (Houtputs v). }
  unfold fetch_history. rewrite Hchain.
  unfold blockchain_history_fetched. simpl. rewrite do_query_run, Hs, Ho.
  by apply indexer_history_fetched_returned.
Qed.

(** X15. When [merge] returns, the rows of the unconfirmed outputs come
    after the confirmed rows, in the order of the outputs: the row at the
    place of the k-th output has its point and value and [output_height]
    [0]. *)
Theorem merge_appends_outputs_in_order asserts outputs spends confirmed result
    k output_info :
  merge asserts outputs spends confirmed = Returned tt result →
  outputs !! k = Some output_info →
  ∃ row, result !! (length confirmed + k)%nat = Some row ∧
    output row = output_info_point output_info ∧
    output_height row = 0 ∧
    row_value row = value output_info.
Proof.
  intros [_ Hspends%mark_spends_marked_by]%merge_returned Hk.
  assert (accumulated confirmed outputs !! (length confirmed + k)%nat =
          Some (unconfirmed_row output_info)) as Hacc.
  { unfold accumulated. rewrite lookup_app_r by lia.
    replace (length confirmed + k - length confirmed)%nat with k by lia.
    by rewrite list_lookup_fmap, Hk. }
  destruct (Forall2_lookup_l _ _ _ _ _ Hspends Hacc) as (row & Hrow & Hby).
  exists row. split; [done|].
  by apply marked_by_output in Hby as (-> & -> & ->).
Qed.

(** X16. When [merge] returns, a row whose output no unconfirmed spend
    refers to is in the result as it was in the accumulated list, at the
    same place, in any build. *)
Theorem merge_leaves_unreferenced_rows asserts outputs spends confirmed result
    i row :
  merge asserts outputs spends confirmed = Returned tt result →
  accumulated confirmed outputs !! i = Some row →
  (∀ spend_info, spend_info ∈ spends →
                 previous_output spend_info ≠ output row) →
  result !! i = Some row.
Proof.
  intros [_ Hspends%mark_spends_marked_by]%merge_returned Hi Hnone.
  destruct (Forall2_lookup_l _ _ _ _ _ Hspends Hi)
    as (row' & Hrow' & [->|(s & Hs & Hprev & _)]); [done|].
  by destruct (Hnone s Hs).
Qed.

(** X17. With assertions, an unconfirmed output whose point is the output
    of a confirmed row, or the point of another unconfirmed output, stops
    [merge] at the assertion of lines 228-240, whatever the spends; the
    fetch handler is not called. *)
Theorem merge_output_conflict_aborts outputs spends confirmed handle_fetch st :
  (∃ output_info row,
     output_info ∈ outputs ∧ row ∈ confirmed ∧
     output row = output_info_point output_info) ∨
  ¬ NoDup (output_info_point <$> outputs) →
  indexer_history_fetched true no_error outputs spends confirmed
    handle_fetch st =
    Aborted "row.output != output_info.point" st.
Proof.
  intros Hclash.
  destruct (add_outputs_cases true outputs confirmed)
    as [Hret|[_ [added Habort]]].
  - apply add_outputs_returned_distinct in Hret as [Hnodup Hfresh].
    destruct Hclash as [(o & row & Ho & Hrow & Heq)|Hdup]; [|done].
    by destruct (Hfresh o row Ho Hrow).
  - eapply indexer_history_fetched_aborted.
    unfold merge, bind. by rewrite Habort.
Qed.

(** X18. With assertions, two unconfirmed spends of the same output stop
    [merge] at a failed assertion; the fetch handler is not called. *)
Theorem merge_double_spend_aborts outputs confirmed earlier first between
    second later handle_fetch st :
  previous_output first = previous_output second →
  ∃ msg,
    indexer_history_fetched true no_error outputs
      (earlier ++ first :: between ++ second :: later) confirmed
      handle_fetch st = Aborted msg st.
Proof.
  intros Hsame.
  destruct (add_outputs_cases true outputs confirmed)
    as [Hacc|[_ [added Habort]]].
  - destruct (mark_spends_cases true earlier (accumulated confirmed outputs))
      as [[history1 Hearlier]|[_ (msg & history1 & Hearlier)]].
    + destruct (mark_spends_double_spend first between second later history1
                  Hsame) as (msg & history' & Habort).
      exists msg. eapply indexer_history_fetched_aborted.
      unfold merge, bind. rewrite Hacc, for_each_app. unfold bind.
      fold (accumulated confirmed outputs). rewrite Hearlier. exact Habort.
    + exists msg. eapply indexer_history_fetched_aborted.
      unfold merge, bind. rewrite Hacc, for_each_app. unfold bind.
      fold (accumulated confirmed outputs). by rewrite Hearlier.
  - eexists. eapply indexer_history_fetched_aborted.
    unfold merge, bind. by rewrite Habort.
Qed.

(** X19. The round of a spend marks one row at most, the first that has the
    output: a row that comes after another row with that output is left as
    it is, in any build. *)
Theorem mark_spend_marks_first_row_only asserts spend_info
    (history history' : history_list) i j row_i row_j :
  mark_spend asserts spend_info history = Returned tt history' →
  (i < j)%nat →
  history !! i = Some row_i →
  output row_i = previous_output spend_info →
  history !! j = Some row_j →
  history' !! j = Some row_j.
Proof.
  intros [(_ & -> & _)|(k & row & Hk & _ & Hfirst & _ & ->)]%mark_spend_returned
    Hlt Hi Hrow Hj; [done|].
  rewrite list_lookup_insert_ne; [done|]. intros ->.
  by apply (Hfirst i row_i).
Qed.

End model.

(** * Runs on concrete data *)

(** Hashes are numbers, addresses are strings, and a script is the address
    it pays to, if any. Each transaction below has a locktime of its own,
    which stands for its hash. *)
Definition demo_extract (script : option string) : option string := script.
Definition demo_hash_transaction
    (tx : @transaction_type Z (option string)) : Z :=
  locktime tx.
Definition demo_null_hash : Z := 0.
Definition demo_max_index : Z := 4294967295.

Definition demo_empty : @indexer_state Z string :=
  {| spends_map_ := []; outputs_map_ := []; handled := [] |}.

(** Transaction 2 spends output 0 of transaction 1, which paid A, and pays
    C. *)
Definition demo_tx2 : @transaction_type Z (option string) :=
  {| version := 1;
     locktime := 2;
     inputs :=
       [ {| input_previous_output := {| hash := 1; index := 0 |};
            input_script := Some "A"%string;
            input_sequence := 4294967295 |} ];
     outputs :=
       [ {| output_value := 450; output_script := Some "C"%string |} ] |}.

(** Transaction 3 has an output without an address and pays 250 to B. *)
Definition demo_tx3 : @transaction_type Z (option string) :=
  {| version := 1;
     locktime := 3;
     inputs := [];
     outputs :=
       [ {| output_value := 0; output_script := None |};
         {| output_value := 250; output_script := Some "B"%string |} ] |}.

(** The confirmed output of A: output 0 of transaction 1, 500, at height
    100, unspent. *)
Definition demo_confirmed_row : @history_row Z :=
  {| output := {| hash := 1; index := 0 |};
     output_height := 100;
     row_value := 500;
     spend := {| hash := demo_null_hash; index := demo_max_index |};
     spend_height := max_height |}.

(** The spend that indexing transaction 2 files under A. *)
Definition demo_spend : @spend_info_type Z :=
  {| spend_point := {| hash := 2; index := 0 |};
     previous_output := {| hash := 1; index := 0 |} |}.

(** A spend of an output that is nowhere. *)
Definition demo_stray_spend : @spend_info_type Z :=
  {| spend_point := {| hash := 9; index := 0 |};
     previous_output := {| hash := 8; index := 0 |} |}.

Definition demo_chain (address : string) (from_height : Z)
  : error_code * list (@history_row Z) :=
  if decide (address = "A"%string) then (no_error, [demo_confirmed_row])
  else (no_error, []).

(** An output of A that is already spent, at height 120. *)
Definition demo_spent_row : @history_row Z :=
  {| output := {| hash := 1; index := 1 |};
     output_height := 100;
     row_value := 70;
     spend := {| hash := 5; index := 0 |};
     spend_height := 120 |}.

(** The output that indexing transaction 3 files under B. *)
Definition demo_output : @output_info_type Z :=
  {| output_info_point := {| hash := 3; index := 1 |}; value := 250 |}.

(** A spend of that output. *)
Definition demo_spend_of_output : @spend_info_type Z :=
  {| spend_point := {| hash := 4; index := 0 |};
     previous_output := {| hash := 3; index := 1 |} |}.

(** The index once transaction 2 is indexed. *)
Definition demo_with_tx2 : @indexer_state Z string :=
  {| spends_map_ := [("A"%string, demo_spend)];
     outputs_map_ :=
       [("C"%string,
         {| output_info_point := {| hash := 2; index := 0 |};
            value := 450 |})];
     handled := [] |}.

(** The index once transaction 3 is indexed. *)
Definition demo_with_tx3 : @indexer_state Z string :=
  {| spends_map_ := [];
     outputs_map_ := [("B"%string, demo_output)];
     handled := [] |}.


(** ** The scenarios of the specification *)

(** A has one confirmed output and one unconfirmed spend of it: the history
    fetched for A is that one row, spent at height 0. *)
Example fetch_history_confirmed_output_spent :
  (do_index demo_extract demo_hash_transaction true demo_tx2
     record_completion ;;;
   fetch_history demo_null_hash demo_max_index true demo_chain "A"%string
     record_fetch 0) demo_empty =
  Returned tt
    {| spends_map_ := spends_map_ demo_with_tx2;
       outputs_map_ := outputs_map_ demo_with_tx2;
       handled :=
         [fetch_handler_call no_error
            [ {| output := {| hash := 1; index := 0 |};
                 output_height := 100;
                 row_value := 500;
                 spend := {| hash := 2; index := 0 |};
                 spend_height := 0 |} ]] |}.
Proof. reflexivity. Qed.

(** B has no confirmed history and one unconfirmed output. *)
Example fetch_history_unconfirmed_output :
  (do_index demo_extract demo_hash_transaction true demo_tx3
     record_completion ;;;
   fetch_history demo_null_hash demo_max_index true demo_chain "B"%string
     record_fetch 0) demo_empty =
  Returned tt
    {| spends_map_ := [];
       outputs_map_ := [("B"%string, demo_output)];
       handled :=
         [fetch_handler_call no_error
            [ {| output := {| hash := 3; index := 1 |};
                 output_height := 0;
                 row_value := 250;
                 spend := {| hash := 0; index := 4294967295 |};
                 spend_height := 4294967295 |} ]] |}.
Proof. reflexivity. Qed.

(** Without assertions a second spend of the same output overwrites the
    first, and a spend of an output that is nowhere is skipped. *)
Example merge_without_assertions :
  merge demo_null_hash demo_max_index false []
    [demo_spend; demo_stray_spend;
     {| spend_point := {| hash := 7; index := 3 |};
        previous_output := {| hash := 1; index := 0 |} |}]
    [demo_confirmed_row] =
  Returned tt
    [ {| output := {| hash := 1; index := 0 |};
         output_height := 100;
         row_value := 500;
         spend := {| hash := 7; index := 3 |};
         spend_height := 0 |} ].
Proof. reflexivity. Qed.

(** ** The address index on concrete data *)

(** C1: a query for B, once transaction 3 is indexed, calls its handler with
    the outputs of B second and the (no) spends of B third. *)
Example do_query_demo :
  do_query "B"%string record_query demo_with_tx3 =
  Returned tt
    {| spends_map_ := [];
       outputs_map_ := [("B"%string, demo_output)];
       handled :=
         [query_handler_call no_error (output_infos [demo_output])
            (spend_infos [])] |}.
Proof. reflexivity. Qed.



(** C6, as stated, fails: the second [index] of transaction 2 ends in a
    failed assertion, not in a completion handler called with an error. *)
Lemma index_twice_is_an_abort :
  do_index demo_extract demo_hash_transaction true demo_tx2 record_completion
    demo_empty = Returned tt demo_with_tx2 ∧
  do_index demo_extract demo_hash_transaction true demo_tx2 record_completion
    demo_with_tx2 =
    Aborted "Transaction is indexed duplicate times!" demo_with_tx2 ∧
  ¬ ∃ ec,
      completed_with ec
        (do_index demo_extract demo_hash_transaction true demo_tx2
           record_completion demo_with_tx2).
Proof.
  split_and!; [reflexivity..|].
  intros (ec & st & Hrun & _). discriminate Hrun.
Qed.

Lemma index_again_aborts_witness :
  touches_an_address demo_extract demo_hash_transaction demo_tx2 ∧
  do_index demo_extract demo_hash_transaction true demo_tx2 record_completion
    demo_empty = Returned tt demo_with_tx2 ∧
  do_index demo_extract demo_hash_transaction true demo_tx2 record_completion
    demo_with_tx2 =
    Aborted "Transaction is indexed duplicate times!" demo_with_tx2.
Proof.
  assert (touches_an_address demo_extract demo_hash_transaction demo_tx2)
    as Htouch by (left; discriminate).
  split_and!; [exact Htouch|reflexivity|].
  exact (index_again_aborts demo_extract demo_hash_transaction true demo_tx2
           record_completion record_completion demo_empty demo_with_tx2
           Htouch eq_refl).
Defined.



Lemma index_then_deindex_restores_witness :
  countable_by_uint32 demo_tx2 ∧
  not_indexed demo_extract demo_hash_transaction demo_tx2 demo_with_tx3 ∧
  ∃ st1 st2,
    do_index demo_extract demo_hash_transaction true demo_tx2
      record_completion demo_with_tx3 = Returned tt st1 ∧
    do_deindex demo_extract demo_hash_transaction true demo_tx2
      record_completion st1 = Returned tt st2 ∧
    spends_map_ st2 = spends_map_ demo_with_tx3 ∧
    outputs_map_ st2 = outputs_map_ demo_with_tx3 ∧
    ∀ payaddr handle_query,
      do_query payaddr handle_query st2 =
      do_query payaddr handle_query demo_with_tx3.
Proof.
  assert (countable_by_uint32 demo_tx2) as Hcount by (split; reflexivity).
  assert (not_indexed demo_extract demo_hash_transaction demo_tx2
            demo_with_tx3) as Hfresh by (split; repeat constructor).
  split_and!; [exact Hcount|exact Hfresh|].
  exact (index_then_deindex_restores demo_extract demo_hash_transaction true
           demo_tx2 record_completion record_completion demo_with_tx3
           Hcount Hfresh).
Defined.

(** ** The merger on concrete data *)


Lemma merge_adds_unconfirmed_outputs_witness :
  merge demo_null_hash demo_max_index true [demo_output] [demo_spend]
    [demo_confirmed_row] =
    Returned tt
      [marked demo_spend demo_confirmed_row;
       unconfirmed_row demo_null_hash demo_max_index demo_output] ∧
  demo_output ∈ [demo_output] ∧
  ({| output := {| hash := 3; index := 1 |};
      output_height := 0;
      row_value := 250;
      spend := {| hash := demo_null_hash; index := demo_max_index |};
      spend_height := max_height |}
     ∈ [marked demo_spend demo_confirmed_row;
        unconfirmed_row demo_null_hash demo_max_index demo_output] ∨
   ∃ spend_info,
     spend_info ∈ [demo_spend] ∧
     previous_output spend_info = {| hash := 3; index := 1 |} ∧
     {| output := {| hash := 3; index := 1 |};
        output_height := 0;
        row_value := 250;
        spend := spend_point spend_info;
        spend_height := 0 |}
       ∈ [marked demo_spend demo_confirmed_row;
          unconfirmed_row demo_null_hash demo_max_index demo_output]).
Proof.
  assert (demo_output ∈ [demo_output]) as Hin by apply list_elem_of_here.
  split_and!; [reflexivity|exact Hin|].
  exact (merge_adds_unconfirmed_outputs demo_null_hash demo_max_index true
           [demo_output] [demo_spend] [demo_confirmed_row]
           [marked demo_spend demo_confirmed_row;
            unconfirmed_row demo_null_hash demo_max_index demo_output]
           demo_output eq_refl Hin).
Defined.

(** C5, as stated, fails: a spend of an output that is in no row makes
    [merge] end in a failed assertion; the fetch handler is not called, with
    an error or otherwise. *)
Lemma unmatched_spend_is_an_abort :
  indexer_history_fetched demo_null_hash demo_max_index true no_error []
    [demo_stray_spend] [demo_confirmed_row] record_fetch demo_empty =
    Aborted "Couldn't find output for adding spend" demo_empty ∧
  ¬ ∃ ec history,
      fetched_with ec history
        (indexer_history_fetched demo_null_hash demo_max_index true no_error
           [] [demo_stray_spend] [demo_confirmed_row] record_fetch
           demo_empty).
Proof.
  split; [reflexivity|].
  intros (ec & history & st & Hrun & _). discriminate Hrun.
Qed.

Lemma unmatched_spend_aborts_witness :
  demo_stray_spend ∈ [demo_spend; demo_stray_spend] ∧
  Forall (λ row, output row ≠ previous_output demo_stray_spend)
    (accumulated demo_null_hash demo_max_index [demo_confirmed_row]
       [demo_output]) ∧
  mark_spend demo_null_hash demo_max_index true demo_stray_spend
    (accumulated demo_null_hash demo_max_index [demo_confirmed_row]
       [demo_output]) =
    Aborted "Couldn't find output for adding spend"
      (accumulated demo_null_hash demo_max_index [demo_confirmed_row]
         [demo_output]) ∧
  ∃ msg,
    indexer_history_fetched demo_null_hash demo_max_index true no_error
      [demo_output] [demo_spend; demo_stray_spend] [demo_confirmed_row]
      record_fetch demo_empty = Aborted msg demo_empty.
Proof.
  assert (demo_stray_spend ∈ [demo_spend; demo_stray_spend]) as Hin
    by (apply list_elem_of_further, list_elem_of_here).
  assert (Forall (λ row, output row ≠ previous_output demo_stray_spend)
            (accumulated demo_null_hash demo_max_index [demo_confirmed_row]
               [demo_output])) as Hnone
    by (repeat constructor; discriminate).
  split; [exact Hin|]. split; [exact Hnone|].
  exact (unmatched_spend_aborts demo_null_hash demo_max_index [demo_output]
           [demo_spend; demo_stray_spend] [demo_confirmed_row]
           demo_stray_spend record_fetch demo_empty Hin Hnone).
Defined.

Lemma merge_writes_spend_once_witness :
  merge demo_null_hash demo_max_index true [demo_output] [demo_spend]
    [demo_confirmed_row; demo_spent_row] =
    Returned tt
      [marked demo_spend demo_confirmed_row; demo_spent_row;
       unconfirmed_row demo_null_hash demo_max_index demo_output] ∧
  merge demo_null_hash demo_max_index true [demo_output]
    ([demo_spend] ++ [demo_spend_of_output])
    [demo_confirmed_row; demo_spent_row] =
    Returned tt
      [marked demo_spend demo_confirmed_row; demo_spent_row;
       marked demo_spend_of_output
         (unconfirmed_row demo_null_hash demo_max_index demo_output)] ∧
  (∀ i row,
     [demo_confirmed_row; demo_spent_row] !! i = Some row →
     spend_height row ≠ max_height →
     [marked demo_spend demo_confirmed_row; demo_spent_row;
      marked demo_spend_of_output
        (unconfirmed_row demo_null_hash demo_max_index demo_output)] !! i =
       Some row) ∧
  (∀ i row,
     [marked demo_spend demo_confirmed_row; demo_spent_row;
      unconfirmed_row demo_null_hash demo_max_index demo_output] !! i =
       Some row →
     spend_height row ≠ max_height →
     [marked demo_spend demo_confirmed_row; demo_spent_row;
      marked demo_spend_of_output
        (unconfirmed_row demo_null_hash demo_max_index demo_output)] !! i =
       Some row).
Proof.
  pose proof (merge_writes_spend_once demo_null_hash demo_max_index
                [demo_output] [demo_spend] [demo_spend_of_output]
                [demo_confirmed_row; demo_spent_row]) as [Hconfirmed Hmid].
  split_and!; [reflexivity|reflexivity|exact Hconfirmed|].
  exact (Hmid _ eq_refl).
Defined.

(** With assertions, a second spend of an output stops [merge] before the
    row is assigned again. *)
Example merge_second_spend_stops :
  merge demo_null_hash demo_max_index true []
    [demo_spend;
     {| spend_point := {| hash := 7; index := 3 |};
        previous_output := {| hash := 1; index := 0 |} |}]
    [demo_confirmed_row] =
  Aborted "row.spend_height == max_height"
    [marked demo_spend demo_confirmed_row].
Proof. reflexivity. Qed.

Lemma merge_keeps_confirmed_rows_witness :
  merge demo_null_hash demo_max_index false [demo_output]
    [demo_spend; demo_stray_spend] [demo_confirmed_row; demo_spent_row] =
    Returned tt
      [marked demo_spend demo_confirmed_row; demo_spent_row;
       unconfirmed_row demo_null_hash demo_max_index demo_output] ∧
  length
    [marked demo_spend demo_confirmed_row; demo_spent_row;
     unconfirmed_row demo_null_hash demo_max_index demo_output] =
    (length [demo_confirmed_row; demo_spent_row] +
     length [demo_output])%nat ∧
  ∀ i row,
    [demo_confirmed_row; demo_spent_row] !! i = Some row →
    ∃ row',
      [marked demo_spend demo_confirmed_row; demo_spent_row;
       unconfirmed_row demo_null_hash demo_max_index demo_output] !! i =
        Some row' ∧
      output row' = output row ∧
      output_height row' = output_height row ∧
      row_value row' = row_value row.
Proof.
  split; [reflexivity|].
  exact (merge_keeps_confirmed_rows demo_null_hash demo_max_index false
           [demo_output] [demo_spend; demo_stray_spend]
           [demo_confirmed_row; demo_spent_row]
           [marked demo_spend demo_confirmed_row; demo_spent_row;
            unconfirmed_row demo_null_hash demo_max_index demo_output]
           eq_refl).
Defined.

(** ** Further runs on concrete data *)

(** Transaction 4 has no script that resolves to an address. *)
Definition demo_tx4 : @transaction_type Z (option string) :=
  {| version := 1;
     locktime := 4;
     inputs :=
       [ {| input_previous_output := {| hash := 1; index := 1 |};
            input_script := None;
            input_sequence := 0 |} ];
     outputs := [ {| output_value := 5; output_script := None |} ] |}.

(** The output that indexing transaction 2 files under C. *)
Definition demo_output_of_tx2 : @output_info_type Z :=
  {| output_info_point := {| hash := 2; index := 0 |}; value := 450 |}.

(** The index once transaction 3, then transaction 2, are indexed. *)
Definition demo_with_tx3_tx2 : @indexer_state Z string :=
  {| spends_map_ := [("A"%string, demo_spend)];
     outputs_map_ :=
       [("B"%string, demo_output); ("C"%string, demo_output_of_tx2)];
     handled := [] |}.

(** The index once transaction 2, then transaction 3, are indexed. *)
Definition demo_with_tx2_tx3 : @indexer_state Z string :=
  {| spends_map_ := [("A"%string, demo_spend)];
     outputs_map_ :=
       [("C"%string, demo_output_of_tx2); ("B"%string, demo_output)];
     handled := [] |}.

(** An unconfirmed output with the point of the confirmed output of A. *)
Definition demo_confirmed_again : @output_info_type Z :=
  {| output_info_point := {| hash := 1; index := 0 |}; value := 500 |}.

(** Another spend of the confirmed output of A. *)
Definition demo_second_spend : @spend_info_type Z :=
  {| spend_point := {| hash := 7; index := 3 |};
     previous_output := {| hash := 1; index := 0 |} |}.

(** A chain that fails with error 5, and hands rows along all the same. *)
Definition demo_failing_chain (address : string) (from_height : Z)
  : error_code * list (@history_row Z) :=
  (5, [demo_confirmed_row]).

Ltac demo_elements :=
  repeat match goal with
         | H : _ ∈ [] |- _ => by apply elem_of_nil in H
         | H : _ ∈ _ :: _ |- _ =>
             apply elem_of_cons in H as [H|H]; [simplify_eq|]
         end.

Lemma do_index_returns_iff_not_indexed_witness :
  countable_by_uint32 demo_tx2 ∧
  ((∃ st1, do_index demo_extract demo_hash_transaction true demo_tx2
             record_completion demo_with_tx3 = Returned tt st1) ↔
   not_indexed demo_extract demo_hash_transaction demo_tx2 demo_with_tx3).
Proof.
  assert (countable_by_uint32 demo_tx2) as Hcount by (split; reflexivity).
  split; [exact Hcount|].
  exact (do_index_returns_iff_not_indexed demo_extract demo_hash_transaction
           demo_tx2 record_completion demo_with_tx3 Hcount).
Defined.

Lemma do_index_files_inputs_and_outputs_witness :
  countable_by_uint32 demo_tx3 ∧
  do_index demo_extract demo_hash_transaction true demo_tx3 record_completion
    demo_with_tx2 = Returned tt demo_with_tx2_tx3 ∧
  spends_map_ demo_with_tx2_tx3 ≡ₚ spends_map_ demo_with_tx2 ++ [] ∧
  outputs_map_ demo_with_tx2_tx3 ≡ₚ
    outputs_map_ demo_with_tx2 ++
    [("B"%string,
      {| output_info_point := {| hash := 3; index := 1 |}; value := 250 |})].
Proof.
  assert (countable_by_uint32 demo_tx3) as Hcount by (split; reflexivity).
  assert (do_index demo_extract demo_hash_transaction true demo_tx3
            record_completion demo_with_tx2 = Returned tt demo_with_tx2_tx3)
    as Hrun by reflexivity.
  split; [exact Hcount|]. split; [exact Hrun|].
  exact (do_index_files_inputs_and_outputs demo_extract
           demo_hash_transaction true demo_tx3 record_completion
           demo_with_tx2 demo_with_tx2_tx3 Hcount Hrun).
Defined.

Lemma do_index_keeps_entries_distinct_witness :
  NoDup (entry_key <$> spends_map_ demo_with_tx3) ∧
  NoDup (entry_key <$> outputs_map_ demo_with_tx3) ∧
  do_index demo_extract demo_hash_transaction true demo_tx2 record_completion
    demo_with_tx3 = Returned tt demo_with_tx3_tx2 ∧
  NoDup (entry_key <$> spends_map_ demo_with_tx3_tx2) ∧
  NoDup (entry_key <$> outputs_map_ demo_with_tx3_tx2).
Proof.
  assert (NoDup (entry_key <$> spends_map_ demo_with_tx3)) as Hs
    by apply NoDup_nil_2.
  assert (NoDup (entry_key <$> outputs_map_ demo_with_tx3)) as Ho
    by apply NoDup_singleton.
  assert (do_index demo_extract demo_hash_transaction true demo_tx2
            record_completion demo_with_tx3 = Returned tt demo_with_tx3_tx2)
    as Hrun by reflexivity.
  split; [exact Hs|]. split; [exact Ho|]. split; [exact Hrun|].
  exact (do_index_keeps_entries_distinct demo_extract demo_hash_transaction
           demo_tx2 record_completion demo_with_tx3 demo_with_tx3_tx2
           Hs Ho Hrun).
Defined.

Lemma do_index_other_addresses_witness :
  do_index demo_extract demo_hash_transaction true demo_tx2 record_completion
    demo_with_tx3 = Returned tt demo_with_tx3_tx2 ∧
  get_info_list "B"%string (spends_map_ demo_with_tx3_tx2) =
    get_info_list "B"%string (spends_map_ demo_with_tx3) ∧
  get_info_list "B"%string (outputs_map_ demo_with_tx3_tx2) =
    get_info_list "B"%string (outputs_map_ demo_with_tx3).
Proof.
  split; [reflexivity|].
  apply (do_index_other_addresses demo_extract demo_hash_transaction true
           demo_tx2 record_completion demo_with_tx3 demo_with_tx3_tx2
           "B"%string).
  - intros input Hin. simpl in Hin. demo_elements; try discriminate.
  - intros output Hin. simpl in Hin. demo_elements; try discriminate.
  - reflexivity.
Defined.

Lemma transaction_without_address_is_skipped_witness :
  countable_by_uint32 demo_tx4 ∧
  do_index demo_extract demo_hash_transaction true demo_tx4 record_completion
    demo_with_tx2 = Returned tt demo_with_tx2 ∧
  do_deindex demo_extract demo_hash_transaction true demo_tx4
    record_completion demo_with_tx2 = Returned tt demo_with_tx2.
Proof.
  assert (countable_by_uint32 demo_tx4) as Hcount by (split; reflexivity).
  split; [exact Hcount|].
  apply (transaction_without_address_is_skipped demo_extract
           demo_hash_transaction true demo_tx4 record_completion
           demo_with_tx2 Hcount).
  - intros input Hin. simpl in Hin. demo_elements; try reflexivity.
  - intros output Hin. simpl in Hin. demo_elements; try reflexivity.
Defined.

Lemma do_deindex_removes_entries_witness :
  do_deindex demo_extract demo_hash_transaction true demo_tx2
    record_completion demo_with_tx2_tx3 = Returned tt demo_with_tx3 ∧
  spends_map_ demo_with_tx3 =
    filter
      (λ e, entry_key e ∉
            entry_key <$>
              spends_of_tx demo_extract demo_hash_transaction demo_tx2)
      (spends_map_ demo_with_tx2_tx3) ∧
  outputs_map_ demo_with_tx3 =
    filter
      (λ e, entry_key e ∉
            entry_key <$>
              outputs_of_tx demo_extract demo_hash_transaction demo_tx2)
      (outputs_map_ demo_with_tx2_tx3).
Proof.
  split; [reflexivity|].
  exact (do_deindex_removes_entries demo_extract demo_hash_transaction
           demo_tx2 record_completion demo_with_tx2_tx3 demo_with_tx3
           eq_refl).
Defined.

Lemma do_deindex_keeps_entries_distinct_witness :
  NoDup (entry_key <$> spends_map_ demo_with_tx2) ∧
  NoDup (entry_key <$> outputs_map_ demo_with_tx2) ∧
  do_deindex demo_extract demo_hash_transaction false demo_tx2
    record_completion demo_with_tx2 = Returned tt demo_empty ∧
  spends_map_ demo_empty `sublist_of` spends_map_ demo_with_tx2 ∧
  outputs_map_ demo_empty `sublist_of` outputs_map_ demo_with_tx2 ∧
  NoDup (entry_key <$> spends_map_ demo_empty) ∧
  NoDup (entry_key <$> outputs_map_ demo_empty).
Proof.
  assert (NoDup (entry_key <$> spends_map_ demo_with_tx2)) as Hs
    by apply NoDup_singleton.
  assert (NoDup (entry_key <$> outputs_map_ demo_with_tx2)) as Ho
    by apply NoDup_singleton.
  split; [exact Hs|]. split; [exact Ho|]. split; [reflexivity|].
  exact (do_deindex_keeps_entries_distinct demo_extract demo_hash_transaction
           false demo_tx2 record_completion demo_with_tx2 demo_empty
           Hs Ho eq_refl).
Defined.

Lemma do_deindex_other_addresses_witness :
  do_deindex demo_extract demo_hash_transaction true demo_tx2
    record_completion demo_with_tx2_tx3 = Returned tt demo_with_tx3 ∧
  get_info_list "B"%string (spends_map_ demo_with_tx3) =
    get_info_list "B"%string (spends_map_ demo_with_tx2_tx3) ∧
  get_info_list "B"%string (outputs_map_ demo_with_tx3) =
    get_info_list "B"%string (outputs_map_ demo_with_tx2_tx3).
Proof.
  split; [reflexivity|].
  apply (do_deindex_other_addresses demo_extract demo_hash_transaction true
           demo_tx2 record_completion demo_with_tx2_tx3 demo_with_tx3
           "B"%string).
  - intros input Hin. simpl in Hin. demo_elements; try discriminate.
  - intros output Hin. simpl in Hin. demo_elements; try discriminate.
  - reflexivity.
Defined.

Lemma deindex_then_index_restores_witness :
  countable_by_uint32 demo_tx2 ∧
  do_deindex demo_extract demo_hash_transaction true demo_tx2
    record_completion demo_with_tx2_tx3 = Returned tt demo_with_tx3 ∧
  ∃ st2,
    do_index demo_extract demo_hash_transaction true demo_tx2
      record_completion demo_with_tx3 = Returned tt st2 ∧
    spends_map_ st2 ≡ₚ spends_map_ demo_with_tx2_tx3 ∧
    outputs_map_ st2 ≡ₚ outputs_map_ demo_with_tx2_tx3 ∧
    ∀ payaddr,
      get_info_list payaddr (spends_map_ st2) ≡ₚ
        get_info_list payaddr (spends_map_ demo_with_tx2_tx3) ∧
      get_info_list payaddr (outputs_map_ st2) ≡ₚ
        get_info_list payaddr (outputs_map_ demo_with_tx2_tx3).
Proof.
  assert (countable_by_uint32 demo_tx2) as Hcount by (split; reflexivity).
  split; [exact Hcount|]. split; [reflexivity|].
  apply (deindex_then_index_restores demo_extract demo_hash_transaction
           demo_tx2 record_completion record_completion demo_with_tx2_tx3
           demo_with_tx3 Hcount).
  - repeat constructor.
  - constructor; [|constructor]. apply list_elem_of_here.
  - reflexivity.
Defined.

Lemma fetch_history_delivers_merge_witness :
  demo_chain "A"%string 0 = (no_error, [demo_confirmed_row]) ∧
  merge demo_null_hash demo_max_index true
    (get_info_list "A"%string (outputs_map_ demo_with_tx2))
    (get_info_list "A"%string (spends_map_ demo_with_tx2))
    [demo_confirmed_row] =
    Returned tt [marked demo_spend demo_confirmed_row] ∧
  fetch_history demo_null_hash demo_max_index true demo_chain "A"%string
    record_fetch 0 demo_with_tx2 =
    record_fetch no_error [marked demo_spend demo_confirmed_row]
      demo_with_tx2.
Proof.
  split; [reflexivity|]. split; [reflexivity|].
  exact (fetch_history_delivers_merge demo_null_hash demo_max_index true
           demo_chain "A"%string record_fetch 0 demo_with_tx2
           [demo_confirmed_row] [marked demo_spend demo_confirmed_row]
           eq_refl eq_refl).
Defined.

Lemma fetch_history_upstream_error_witness :
  demo_failing_chain "A"%string 0 = (5, [demo_confirmed_row]) ∧
  5 ≠ 0 ∧
  fetch_history demo_null_hash demo_max_index true demo_failing_chain
    "A"%string record_fetch 0 demo_with_tx2 =
    record_fetch 5 [] demo_with_tx2 ∧
  indexer_history_fetched demo_null_hash demo_max_index true 5
    [demo_confirmed_again] [demo_stray_spend] [demo_confirmed_row]
    record_fetch demo_with_tx2 =
    record_fetch 5 [] demo_with_tx2.
Proof.
  assert (5 ≠ 0) as Hec by discriminate.
  split; [reflexivity|]. split; [exact Hec|].
  exact (fetch_history_upstream_error demo_null_hash demo_max_index true
           demo_failing_chain "A"%string record_fetch 0 demo_with_tx2 5
           [demo_confirmed_row] [demo_confirmed_again] [demo_stray_spend]
           eq_refl Hec).
Defined.

Lemma fetch_history_nothing_indexed_witness :
  demo_chain "A"%string 0 = (no_error, [demo_confirmed_row]) ∧
  fetch_history demo_null_hash demo_max_index true demo_chain "A"%string
    record_fetch 0 demo_with_tx3 =
    record_fetch no_error [demo_confirmed_row] demo_with_tx3.
Proof.
  split; [reflexivity|].
  apply (fetch_history_nothing_indexed demo_null_hash demo_max_index true
           demo_chain "A"%string record_fetch 0 demo_with_tx3
           [demo_confirmed_row] eq_refl).
  - intros spend_info Hin. simpl in Hin. demo_elements.
  - intros output_info Hin. simpl in Hin. demo_elements; try discriminate.
Defined.

Lemma merge_appends_outputs_in_order_witness :
  merge demo_null_hash demo_max_index true [demo_output]
    [demo_spend; demo_spend_of_output] [demo_confirmed_row; demo_spent_row] =
    Returned tt
      [marked demo_spend demo_confirmed_row; demo_spent_row;
       marked demo_spend_of_output
         (unconfirmed_row demo_null_hash demo_max_index demo_output)] ∧
  [demo_output] !! 0%nat = Some demo_output ∧
  ∃ row,
    [marked demo_spend demo_confirmed_row; demo_spent_row;
     marked demo_spend_of_output
       (unconfirmed_row demo_null_hash demo_max_index demo_output)]
      !! (length [demo_confirmed_row; demo_spent_row] + 0)%nat = Some row ∧
    output row = output_info_point demo_output ∧
    output_height row = 0 ∧
    row_value row = value demo_output.
Proof.
  split; [reflexivity|]. split; [reflexivity|].
  exact (merge_appends_outputs_in_order demo_null_hash demo_max_index true
           [demo_output] [demo_spend; demo_spend_of_output]
           [demo_confirmed_row; demo_spent_row] _ 0%nat demo_output
           eq_refl eq_refl).
Defined.

Lemma merge_leaves_unreferenced_rows_witness :
  merge demo_null_hash demo_max_index true [demo_output] [demo_spend]
    [demo_confirmed_row; demo_spent_row] =
    Returned tt
      [marked demo_spend demo_confirmed_row; demo_spent_row;
       unconfirmed_row demo_null_hash demo_max_index demo_output] ∧
  accumulated demo_null_hash demo_max_index
    [demo_confirmed_row; demo_spent_row] [demo_output] !! 2%nat =
    Some (unconfirmed_row demo_null_hash demo_max_index demo_output) ∧
  [marked demo_spend demo_confirmed_row; demo_spent_row;
   unconfirmed_row demo_null_hash demo_max_index demo_output] !! 2%nat =
    Some (unconfirmed_row demo_null_hash demo_max_index demo_output).
Proof.
  assert (merge demo_null_hash demo_max_index true [demo_output] [demo_spend]
            [demo_confirmed_row; demo_spent_row] =
          Returned tt
            [marked demo_spend demo_confirmed_row; demo_spent_row;
             unconfirmed_row demo_null_hash demo_max_index demo_output])
    as Hrun by reflexivity.
  assert (accumulated demo_null_hash demo_max_index
            [demo_confirmed_row; demo_spent_row] [demo_output] !! 2%nat =
          Some (unconfirmed_row demo_null_hash demo_max_index demo_output))
    as Hrow by reflexivity.
  split; [exact Hrun|]. split; [exact Hrow|].
  apply (merge_leaves_unreferenced_rows demo_null_hash demo_max_index true
           [demo_output] [demo_spend] [demo_confirmed_row; demo_spent_row]
           _ 2%nat _ Hrun Hrow).
  intros spend_info Hin. demo_elements; try discriminate.
Defined.

Lemma merge_output_conflict_aborts_witness :
  demo_confirmed_again ∈ [demo_output; demo_confirmed_again] ∧
  demo_confirmed_row ∈ [demo_confirmed_row] ∧
  output demo_confirmed_row = output_info_point demo_confirmed_again ∧
  indexer_history_fetched demo_null_hash demo_max_index true no_error
    [demo_output; demo_confirmed_again] [demo_spend] [demo_confirmed_row]
    record_fetch demo_with_tx2 =
    Aborted "row.output != output_info.point" demo_with_tx2.
Proof.
  assert (demo_confirmed_again ∈ [demo_output; demo_confirmed_again]) as Ho
    by (apply list_elem_of_further, list_elem_of_here).
  assert (demo_confirmed_row ∈ [demo_confirmed_row]) as Hrow
    by apply list_elem_of_here.
  split; [exact Ho|]. split; [exact Hrow|]. split; [reflexivity|].
  apply (merge_output_conflict_aborts demo_null_hash demo_max_index
           [demo_output; demo_confirmed_again] [demo_spend]
           [demo_confirmed_row] record_fetch demo_with_tx2).
  left. exists demo_confirmed_again, demo_confirmed_row. by split_and!.
Defined.

Lemma merge_double_spend_aborts_witness :
  previous_output demo_spend = previous_output demo_second_spend ∧
  ∃ msg,
    indexer_history_fetched demo_null_hash demo_max_index true no_error
      [demo_output]
      ([demo_spend_of_output] ++
       demo_spend :: [] ++ demo_second_spend :: [])
      [demo_confirmed_row] record_fetch demo_with_tx2 =
      Aborted msg demo_with_tx2.
Proof.
  split; [reflexivity|].
  exact (merge_double_spend_aborts demo_null_hash demo_max_index
           [demo_output] [demo_confirmed_row] [demo_spend_of_output]
           demo_spend [] demo_second_spend [] record_fetch demo_with_tx2
           eq_refl).
Defined.

Lemma mark_spend_marks_first_row_only_witness :
  mark_spend demo_null_hash demo_max_index false demo_spend
    [demo_spent_row; demo_confirmed_row; demo_confirmed_row] =
    Returned tt
      [demo_spent_row; marked demo_spend demo_confirmed_row;
       demo_confirmed_row] ∧
  [demo_spent_row; marked demo_spend demo_confirmed_row; demo_confirmed_row]
    !! 2%nat = Some demo_confirmed_row.
Proof.
  assert (mark_spend demo_null_hash demo_max_index false demo_spend
            [demo_spent_row; demo_confirmed_row; demo_confirmed_row] =
          Returned tt
            [demo_spent_row; marked demo_spend demo_confirmed_row;
             demo_confirmed_row]) as Hrun by reflexivity.
  split; [exact Hrun|].
  apply (mark_spend_marks_first_row_only demo_null_hash demo_max_index false
           demo_spend
           [demo_spent_row; demo_confirmed_row; demo_confirmed_row] _
           1%nat 2%nat demo_confirmed_row demo_confirmed_row Hrun);
    [lia|reflexivity..].
Defined.


Lemma merge_returns_witness :
  ∃ result,
    merge demo_null_hash demo_max_index true [demo_output]
      [demo_spend; demo_spend_of_output]
      [demo_confirmed_row; demo_spent_row] = Returned tt result.
Proof.
  apply (merge_returns demo_null_hash demo_max_index [demo_output]
           [demo_spend; demo_spend_of_output]
           [demo_confirmed_row; demo_spent_row]).
  - apply NoDup_singleton.
  - intros output_info row Ho Hrow. demo_elements; discriminate.
  - apply NoDup_cons. split; [|apply NoDup_singleton].
    intros Hin. simpl in Hin. demo_elements; try discriminate.
  - intros spend_info Hin. demo_elements.
    + exists demo_confirmed_row. split; [apply list_elem_of_here|reflexivity].
    + exists (unconfirmed_row demo_null_hash demo_max_index demo_output).
      split; [|reflexivity].
      do 2 apply list_elem_of_further. apply list_elem_of_here.
  - intros spend_info row Hin Hrow Hout.
    unfold accumulated in Hrow. simpl in Hrow.
    demo_elements; try discriminate; by split.
Defined.

Lemma do_index_without_assertions_files_again_witness :
  countable_by_uint32 demo_tx2 ∧
  ∃ st1,
    do_index demo_extract demo_hash_transaction false demo_tx2
      record_completion demo_with_tx2 = Returned tt st1 ∧
    spends_map_ st1 ≡ₚ
      spends_map_ demo_with_tx2 ++
      spends_of_tx demo_extract demo_hash_transaction demo_tx2 ∧
    outputs_map_ st1 ≡ₚ
      outputs_map_ demo_with_tx2 ++
      outputs_of_tx demo_extract demo_hash_transaction demo_tx2 ∧
    ∀ e,
      e ∈ spends_of_tx demo_extract demo_hash_transaction demo_tx2 →
      e ∈ spends_map_ demo_with_tx2 →
      ¬ NoDup (spends_map_ st1).
Proof.
  assert (countable_by_uint32 demo_tx2) as Hcount by (split; reflexivity).
  split; [exact Hcount|].
  exact (do_index_without_assertions_files_again demo_extract
           demo_hash_transaction demo_tx2 record_completion demo_with_tx2
           Hcount).
Defined.

(** ** Spends of a row that is already spent *)

(** An unconfirmed spend of the output that [demo_spent_row] holds. *)
Definition demo_spend_of_spent : @spend_info_type Z :=
  {| spend_point := {| hash := 6; index := 0 |};
     previous_output := {| hash := 1; index := 1 |} |}.


(** Without assertions nothing stops the spend 6:0 of the row of output 1:1,
    which was spent by 5:0 at height 120: [merge] returns with the spend of
    that row assigned a second time. *)
Lemma spent_row_is_overwritten_without_assertions :
  [demo_spent_row] !! 0%nat = Some demo_spent_row ∧
  spend demo_spent_row = {| hash := 5; index := 0 |} ∧
  spend_height demo_spent_row = 120 ∧
  spend_height demo_spent_row ≠ max_height ∧
  merge demo_null_hash demo_max_index false [] [demo_spend_of_spent]
    [demo_spent_row] =
    Returned tt
      [{| output := {| hash := 1; index := 1 |};
          output_height := 100;
          row_value := 70;
          spend := {| hash := 6; index := 0 |};
          spend_height := 0 |}] ∧
  [{| output := {| hash := 1; index := 1 |};
      output_height := 100;
      row_value := 70;
      spend := {| hash := 6; index := 0 |};
      spend_height := 0 |}] !! 0%nat ≠ Some demo_spent_row.
Proof.
  split_and!; [reflexivity|reflexivity|reflexivity|discriminate|reflexivity|
               discriminate].
Qed.
